(** * Backend/app.py: the three read-only handlers of the judicial-decisions
    query service, as a shallow embedding.

    The handlers are Python functions that assemble SQL text, send it with
    bound parameters through a psycopg2 cursor and post-process the rows.
    The embedding keeps that shape:

    - [Py]      the Python values and built-ins the handlers use
                (truthiness, [sorted], dict comprehension);
    - [Schema]  the three tables the handlers read;
    - [Sql]     the store: a lexer, a parser and an evaluator for the
                fragment of SQL the handlers emit, so that the text built
                by a handler is the thing that gets executed;
    - [Runtime] a state-and-exception monad for connections and cursors;
    - [App]     the handlers, line by line;
    - [Request] what a request asks for, in terms of the tables;
    - [Sample]  a small registry to run the handlers on.

    The properties follow: the order on cells, what the store reads in
    the query texts and answers to them, and then the statements about
    /search, /descargar, /filters and the connections.

    Strings are byte strings (UTF-8); lexicographic order on UTF-8 bytes
    coincides with Python's code-point order on [str]. *)

From Stdlib Require Import ZArith Ascii String Sorted.
From stdpp Require Import base option list sorting strings gmap.

Local Open Scope Z_scope.

(** ** Python values *)

Module Py.

(** What a psycopg2 row cell or a bound parameter can hold here. *)
Inductive value :=
| VNone
| VStr (s : string)
| VInt (n : Z).

#[global] Instance value_eq_dec : EqDecision value.
Proof. solve_decision. Defined.

#[global] Instance value_countable : Countable value.
Proof.
  refine (inj_countable'
            (λ v, match v with
                  | VNone => inl ()
                  | VStr s => inr (inl s)
                  | VInt n => inr (inr n)
                  end)
            (λ x, match x with
                  | inl _ => VNone
                  | inr (inl s) => VStr s
                  | inr (inr n) => VInt n
                  end) _).
  by intros [].
Defined.

Definition of_option (o : option string) : value :=
  match o with
  | Some s => VStr s
  | None => VNone
  end.

(** Whether a [str] holds the character U+0000. PostgreSQL text cannot
    hold it, and psycopg2 refuses to send a [str] that does. *)
Fixpoint has_nul (s : string) : bool :=
  match s with
  | EmptyString => false
  | String c s' => (N_of_ascii c =? 0)%N || has_nul s'
  end.

Definition clean (o : option string) : bool :=
  match o with
  | Some s => negb (has_nul s)
  | None => true
  end.

(** [if x:] for [x : Optional[str]]: [None] and [""] are falsy. *)
Definition truthy (x : option string) : bool :=
  match x with
  | Some (String _ _) => true
  | _ => false
  end.

(** [x is not None] *)
Definition is_not_None (x : option string) : bool :=
  match x with
  | Some _ => true
  | None => false
  end.

(** [a <= b] on [str]. *)
Fixpoint str_le (a b : string) : bool :=
  match a, b with
  | EmptyString, _ => true
  | String _ _, EmptyString => false
  | String x a', String y b' =>
      if (N_of_ascii x <? N_of_ascii y)%N then true
      else if (N_of_ascii x =? N_of_ascii y)%N then str_le a' b'
      else false
  end.

Definition is_str (v : value) : bool :=
  match v with VStr _ => true | _ => false end.

Definition is_int (v : value) : bool :=
  match v with VInt _ => true | _ => false end.

(** The order [sorted] uses between two cells of the same kind. *)
Definition value_le (a b : value) : bool :=
  match a, b with
  | VStr s, VStr t => str_le s t
  | VInt n, VInt m => (n <=? m)%Z
  | VInt _, _ => true
  | VStr _, VNone => true
  | VNone, VNone => true
  | _, _ => false
  end.

Definition value_le_rel : relation value := λ a b, Is_true (value_le a b).

#[global] Instance value_le_rel_dec a b : Decision (value_le_rel a b).
Proof. unfold value_le_rel. apply _. Defined.

(** [sorted(l)]: a list of at most one element is returned as it is; a
    longer list is compared element against element, which raises
    [TypeError] unless all elements are [str] or all are [int]. *)
Definition sorted (l : list value) : option (list value) :=
  if bool_decide (length l ≤ 1)%nat then Some l
  else if forallb is_str l || forallb is_int l
       then Some (merge_sort value_le_rel l)
       else None.

(** [{row[0]: row[1] for row in filas}]: rows are inserted left to right,
    so a later row replaces an earlier one with the same key. *)
Definition dict_of_rows (filas : list (value * value)) : gmap value value :=
  foldl (λ d row, <[row.1 := row.2]> d) ∅ filas.

End Py.

(** ** The tables *)

Module Schema.
Import Py.

(** [sentencias_y_autos]: [ndetalle] is the key; the other columns are
    nullable text. *)
Record sentencia := {
  ndetalle : string;
  codigo_organo : option string;
  codigo_recurso : option string;
  especialidad_expe : option string;
  organo_detalle : option string;
  url : option string
}.

(** [sentencias_jueces] *)
Record sentencia_juez := {
  sj_ndetalle : string;
  sj_codigo : string
}.

(** [jueces] *)
Record juez := {
  codigo : string;
  nombre_juez : option string
}.

Definition clean_sentencia (s : sentencia) : bool :=
  negb (has_nul (ndetalle s)) && clean (codigo_organo s)
  && clean (codigo_recurso s) && clean (especialidad_expe s)
  && clean (organo_detalle s) && clean (url s).

Definition clean_sentencia_juez (sj : sentencia_juez) : bool :=
  negb (has_nul (sj_ndetalle sj)) && negb (has_nul (sj_codigo sj)).

Definition clean_juez (j : juez) : bool :=
  negb (has_nul (codigo j)) && clean (nombre_juez j).

(** The three tables. What the server stores is PostgreSQL text, which
    holds no U+0000: [stored_text] records it. *)
Record database := {
  sentencias_y_autos : list sentencia;
  sentencias_jueces : list sentencia_juez;
  jueces : list juez;
  stored_text :
    forallb clean_sentencia sentencias_y_autos
    && forallb clean_sentencia_juez sentencias_jueces
    && forallb clean_juez jueces = true
}.

End Schema.

(** ** The store: the SQL fragment the handlers emit

    The server is PostgreSQL behind psycopg2. What is taken from it:
    a statement text is read word by word; each [%s] takes the next
    parameter; [=] against NULL is not true; DISTINCT keeps one copy of
    each row; text is ordered bytewise, NULLs last; LIMIT and OFFSET must
    be non-negative bigints; rows that no ORDER BY orders come in table
    order. Join keys ([ndetalle], [codigo]) are not null.

    The server does not say in which order it returns rows that tie on
    the ORDER BY key; [order] below returns them in one order (a stable
    sort). A statement about the order of the rows of a page is therefore
    made where identifiers are unique, so that no two rows tie. *)

Module Sql.
Import Py Schema.

(** *** Lexer: words separated by blanks; [( ) , ;] stand alone. *)

Definition is_blank (c : ascii) : bool :=
  match N_of_ascii c with
  | 9%N | 10%N | 13%N | 32%N => true
  | _ => false
  end.

Definition is_punct (c : ascii) : bool :=
  match N_of_ascii c with
  | 40%N | 41%N | 44%N | 59%N => true
  | _ => false
  end.

Definition emit (word : string) (rest : list string) : list string :=
  match word with
  | EmptyString => rest
  | _ => word :: rest
  end.

Fixpoint lex_from (word : string) (s : string) : list string :=
  match s with
  | EmptyString => emit word []
  | String c s' =>
      if is_blank c then emit word (lex_from "" s')
      else if is_punct c then emit word (String c "" :: lex_from "" s')
      else lex_from (word +:+ String c "") s'
  end.

Definition lex (s : string) : list string := lex_from "" s.

(** *** Abstract syntax *)

Inductive column :=
| Col_ndetalle
| Col_url
| Col_codigo_organo
| Col_codigo_recurso
| Col_especialidad_expe
| Col_organo_detalle
| Col_nombre_juez.

#[global] Instance column_eq_dec : EqDecision column.
Proof. solve_decision. Defined.

(** A column reference, written with its table alias ([s.url]) or bare
    ([url]). *)
Record colref := { qualified : bool; col : column }.

#[global] Instance colref_eq_dec : EqDecision colref.
Proof. solve_decision. Defined.

Inductive projection :=
| PCountDistinct (c : colref)
| PSelect (distinct : bool) (cols : list colref).

(** [c = %s] and [c IS NOT NULL]. *)
Inductive cond :=
| CEq (c : colref)
| CNotNull (c : colref).

(** The FROM clauses of the application. *)
Inductive source :=
| SPlain    (* sentencias_y_autos *)
| SInner    (* sentencias_y_autos s JOIN sentencias_jueces sj .. JOIN jueces j .. *)
| SLeft     (* the same chain with LEFT JOIN *)
| SJueces.  (* jueces j JOIN sentencias_jueces sj .. JOIN sentencias_y_autos s .. *)

Record statement := {
  st_proj : projection;
  st_from : source;
  st_where : list cond;
  st_order_by : option colref;
  st_paginated : bool
}.

(** *** Parser *)

Definition colref_names : list (string * colref) :=
  [ ("s.ndetalle", Build_colref true Col_ndetalle);
    ("s.url", Build_colref true Col_url);
    ("s.codigo_organo", Build_colref true Col_codigo_organo);
    ("s.codigo_recurso", Build_colref true Col_codigo_recurso);
    ("s.especialidad_expe", Build_colref true Col_especialidad_expe);
    ("s.organo_detalle", Build_colref true Col_organo_detalle);
    ("j.nombre_juez", Build_colref true Col_nombre_juez);
    ("ndetalle", Build_colref false Col_ndetalle);
    ("url", Build_colref false Col_url);
    ("codigo_organo", Build_colref false Col_codigo_organo);
    ("codigo_recurso", Build_colref false Col_codigo_recurso);
    ("especialidad_expe", Build_colref false Col_especialidad_expe);
    ("organo_detalle", Build_colref false Col_organo_detalle) ].

Fixpoint assoc {A} (k : string) (l : list (string * A)) : option A :=
  match l with
  | [] => None
  | (k', a) :: l' => if String.eqb k k' then Some a else assoc k l'
  end.

Definition parse_colref (tok : string) : option colref := assoc tok colref_names.

(** [expect ws ts]: [ts] without its prefix [ws]. *)
Fixpoint expect (ws ts : list string) : option (list string) :=
  match ws, ts with
  | [], _ => Some ts
  | w :: ws', t :: ts' => if String.eqb w t then expect ws' ts' else None
  | _ :: _, [] => None
  end.

Fixpoint parse_cols (ts : list string) : option (list colref * list string) :=
  match ts with
  | [] => None
  | t :: rest =>
      match parse_colref t with
      | None => None
      | Some c =>
          match rest with
          | sep :: rest' =>
              if String.eqb sep "," then
                match parse_cols rest' with
                | Some (cs, r) => Some (c :: cs, r)
                | None => None
                end
              else Some ([c], rest)
          | [] => Some ([c], rest)
          end
      end
  end.

Definition parse_projection (ts : list string)
  : option (projection * list string) :=
  match expect ["COUNT"; "("; "DISTINCT"] ts with
  | Some (t :: rest) =>
      c ← parse_colref t;
      r ← expect [")"] rest;
      Some (PCountDistinct c, r)
  | Some [] => None
  | None =>
      match expect ["DISTINCT"] ts with
      | Some rest => '(cs, r) ← parse_cols rest; Some (PSelect true cs, r)
      | None => '(cs, r) ← parse_cols ts; Some (PSelect false cs, r)
      end
  end.

Definition inner_chain : list string :=
  Eval vm_compute in
    lex "sentencias_y_autos s JOIN sentencias_jueces sj ON sj.ndetalle = s.ndetalle JOIN jueces j ON j.codigo = sj.codigo".

Definition left_chain : list string :=
  Eval vm_compute in
    lex "sentencias_y_autos s LEFT JOIN sentencias_jueces sj ON sj.ndetalle = s.ndetalle LEFT JOIN jueces j ON j.codigo = sj.codigo".

Definition jueces_chain : list string :=
  Eval vm_compute in
    lex "jueces j JOIN sentencias_jueces sj ON sj.codigo = j.codigo JOIN sentencias_y_autos s ON s.ndetalle = sj.ndetalle".

Definition parse_source (ts : list string) : option (source * list string) :=
  match expect inner_chain ts with
  | Some r => Some (SInner, r)
  | None =>
  match expect left_chain ts with
  | Some r => Some (SLeft, r)
  | None =>
  match expect jueces_chain ts with
  | Some r => Some (SJueces, r)
  | None =>
  match expect ["sentencias_y_autos"] ts with
  | Some r => Some (SPlain, r)
  | None => None
  end end end end.

Fixpoint parse_conds (ts : list string) : option (list cond * list string) :=
  match ts with
  | t :: op :: rest =>
      match parse_colref t with
      | None => None
      | Some c =>
          let more (one : cond) (after : list string) (tail : option (list cond * list string)) :=
            match tail with
            | Some (cs, r) => Some (one :: cs, r)
            | None => None
            end in
          if String.eqb op "=" then
            match rest with
            | ph :: after =>
                if String.eqb ph "%s" then
                  match after with
                  | kw :: after' =>
                      if String.eqb kw "AND" then more (CEq c) after' (parse_conds after')
                      else Some ([CEq c], after)
                  | [] => Some ([CEq c], after)
                  end
                else None
            | [] => None
            end
          else if String.eqb op "IS" then
            match rest with
            | n1 :: n2 :: after =>
                if String.eqb n1 "NOT" && String.eqb n2 "NULL" then
                  match after with
                  | kw :: after' =>
                      if String.eqb kw "AND" then more (CNotNull c) after' (parse_conds after')
                      else Some ([CNotNull c], after)
                  | [] => Some ([CNotNull c], after)
                  end
                else None
            | _ => None
            end
          else None
      end
  | _ => None
  end.

Definition parse_where (ts : list string) : option (list cond * list string) :=
  match expect ["WHERE"] ts with
  | Some r => parse_conds r
  | None => Some ([], ts)
  end.

Definition parse_order_by (ts : list string) : option (option colref * list string) :=
  match expect ["ORDER"; "BY"] ts with
  | Some (t :: r) => c ← parse_colref t; Some (Some c, r)
  | Some [] => None
  | None => Some (None, ts)
  end.

Definition parse_limit (ts : list string) : option (bool * list string) :=
  match expect ["LIMIT"] ts with
  | Some r => r' ← expect ["%s"; "OFFSET"; "%s"] r; Some (true, r')
  | None => Some (false, ts)
  end.

Definition at_end (ts : list string) : bool :=
  match ts with
  | [] => true
  | [t] => String.eqb t ";"
  | _ => false
  end.

Definition parse (text : string) : option statement :=
  ts ← expect ["SELECT"] (lex text);
  '(p, ts) ← parse_projection ts;
  ts ← expect ["FROM"] ts;
  '(src, ts) ← parse_source ts;
  '(conds, ts) ← parse_where ts;
  '(ord, ts) ← parse_order_by ts;
  '(pag, ts) ← parse_limit ts;
  if at_end ts
  then Some (Build_statement p src conds ord pag)
  else None.

(** *** Evaluation *)

(** A row of the FROM clause: the decision, and the association and judge
    joined to it ([None] where a LEFT JOIN found no partner). *)
Record joined := {
  r_s : sentencia;
  r_sj : option sentencia_juez;
  r_j : option juez
}.

Definition asociaciones (db : database) (s : sentencia) : list sentencia_juez :=
  filter (λ sj, sj_ndetalle sj = ndetalle s) (sentencias_jueces db).

Definition jueces_de (db : database) (sj : sentencia_juez) : list juez :=
  filter (λ j, codigo j = sj_codigo sj) (jueces db).

Definition rows_of (src : source) (db : database) : list joined :=
  match src with
  | SPlain =>
      (λ s, Build_joined s None None) <$> sentencias_y_autos db
  | SInner =>
      s ← sentencias_y_autos db;
      sj ← asociaciones db s;
      j ← jueces_de db sj;
      [Build_joined s (Some sj) (Some j)]
  | SLeft =>
      s ← sentencias_y_autos db;
      match asociaciones db s with
      | [] => [Build_joined s None None]
      | sjs =>
          sj ← sjs;
          match jueces_de db sj with
          | [] => [Build_joined s (Some sj) None]
          | js => j ← js; [Build_joined s (Some sj) (Some j)]
          end
      end
  | SJueces =>
      j ← jueces db;
      sj ← filter (λ sj, sj_codigo sj = codigo j) (sentencias_jueces db);
      s ← filter (λ s, ndetalle s = sj_ndetalle sj) (sentencias_y_autos db);
      [Build_joined s (Some sj) (Some j)]
  end.

Definition cell (c : column) (r : joined) : value :=
  match c with
  | Col_ndetalle => VStr (ndetalle (r_s r))
  | Col_url => of_option (url (r_s r))
  | Col_codigo_organo => of_option (codigo_organo (r_s r))
  | Col_codigo_recurso => of_option (codigo_recurso (r_s r))
  | Col_especialidad_expe => of_option (especialidad_expe (r_s r))
  | Col_organo_detalle => of_option (organo_detalle (r_s r))
  | Col_nombre_juez => of_option (r_j r ≫= nombre_juez)
  end.

Inductive db_error :=
| ProgrammingError   (* syntax, scope, placeholder and type errors *)
| DataError.         (* a row count that is negative or not a bigint *)

(** Aliases exist exactly in the join chains; [j] is not in scope of the
    plain table. *)
Definition has_aliases (src : source) : bool :=
  match src with SPlain => false | _ => true end.

Definition in_scope (src : source) (c : colref) : bool :=
  bool_decide (qualified c = has_aliases src)
  && negb (bool_decide (col c = Col_nombre_juez) && negb (has_aliases src)).

Definition cond_ref (c : cond) : colref :=
  match c with CEq r => r | CNotNull r => r end.

Definition proj_refs (p : projection) : list colref :=
  match p with PCountDistinct c => [c] | PSelect _ cs => cs end.

Definition well_scoped (st : statement) : bool :=
  forallb (in_scope (st_from st))
    (proj_refs (st_proj st) ++ (cond_ref <$> st_where st)
       ++ option_list (st_order_by st)).

(** A condition with its placeholder filled in. *)
Inductive bound :=
| BEq (c : column) (v : value)
| BNotNull (c : column).

(** Placeholders take the parameters from left to right. All columns are
    text: an [int] parameter has no [=] with them. *)
Fixpoint bind (cs : list cond) (params : list value)
  : option (list bound * list value) :=
  match cs with
  | [] => Some ([], params)
  | CNotNull r :: cs' =>
      '(bs, rest) ← bind cs' params; Some (BNotNull (col r) :: bs, rest)
  | CEq r :: cs' =>
      match params with
      | VInt _ :: _ | [] => None
      | v :: params' =>
          '(bs, rest) ← bind cs' params'; Some (BEq (col r) v :: bs, rest)
      end
  end.

(** SQL's three-valued [=]: a comparison with NULL is not true. *)
Definition holds (r : joined) (b : bound) : bool :=
  match b with
  | BEq c v => negb (bool_decide (v = VNone)) && bool_decide (cell c r = v)
  | BNotNull c => negb (bool_decide (cell c r = VNone))
  end.

Definition satisfies (bs : list bound) (r : joined) : bool :=
  forallb (holds r) bs.

Definition selected (src : source) (bs : list bound) (db : database) : list joined :=
  filter (λ r, Is_true (satisfies bs r)) (rows_of src db).

Definition project (p : projection) (rows : list joined) : list (list value) :=
  match p with
  | PCountDistinct c =>
      let vs := filter (λ v, v ≠ VNone) ((λ r, cell (col c) r) <$> rows) in
      [[VInt (Z.of_nat (length (remove_dups vs)))]]
  | PSelect distinct cs =>
      let rs := (λ r, (λ c, cell (col c) r) <$> cs) <$> rows in
      if distinct then remove_dups rs else rs
  end.

Fixpoint index_of (c : colref) (cs : list colref) : option nat :=
  match cs with
  | [] => None
  | c' :: cs' => if decide (c = c') then Some 0%nat else S <$> index_of c cs'
  end.

Definition key (i : nat) (row : list value) : value := default VNone (row !! i).

Definition row_le (i : nat) : relation (list value) :=
  λ r1 r2, value_le_rel (key i r1) (key i r2).

#[global] Instance row_le_dec i r1 r2 : Decision (row_le i r1 r2).
Proof. unfold row_le. apply _. Defined.

(** ORDER BY on a selected column, ascending, NULLs last. *)
Definition order (p : projection) (ord : option colref) (rs : list (list value))
  : option (list (list value)) :=
  match ord with
  | None => Some rs
  | Some c =>
      match p with
      | PSelect _ cs => i ← index_of c cs; Some (merge_sort (row_le i) rs)
      | PCountDistinct _ => None
      end
  end.

Definition is_row_count (n : Z) : bool := (0 <=? n)%Z && (n <? 2 ^ 63)%Z.

(** LIMIT and OFFSET take the two parameters left after the conditions. *)
Definition paginate (pag : bool) (rest : list value) (rs : list (list value))
  : db_error + list (list value) :=
  if pag then
    match rest with
    | [VInt lim; VInt off] =>
        if is_row_count lim && is_row_count off
        then inr (take (Z.to_nat lim) (drop (Z.to_nat off) rs))
        else inl DataError
    | _ => inl ProgrammingError
    end
  else
    match rest with
    | [] => inr rs
    | _ => inl ProgrammingError
    end.

Definition eval (st : statement) (params : list value) (db : database)
  : db_error + list (list value) :=
  if well_scoped st then
    match bind (st_where st) params with
    | None => inl ProgrammingError
    | Some (bs, rest) =>
        let rows := selected (st_from st) bs db in
        match order (st_proj st) (st_order_by st) (project (st_proj st) rows) with
        | None => inl ProgrammingError
        | Some rs => paginate (st_paginated st) rest rs
        end
    end
  else inl ProgrammingError.

(** What the server answers to a statement text with its parameters. *)
Definition run (text : string) (params : list value) (db : database)
  : db_error + list (list value) :=
  match parse text with
  | Some st => eval st params db
  | None => inl ProgrammingError
  end.

End Sql.

(** ** Connections, cursors and exceptions *)

Module Runtime.
Import Py Schema Sql.

Inductive exn :=
| HTTPException (status_code : Z) (detail : string)
| OperationalError              (* psycopg2: the store does not answer *)
| DatabaseError (e : db_error)  (* psycopg2: the store rejected the statement *)
| ValueError                    (* psycopg2: a str parameter holds NUL *)
| TypeError
| IndexError
| SigningError.                 (* google.cloud.storage: no signature *)

(** What is outside the process: the tables, whether the store answers
    the n-th round trip made to it, and the signer of the bucket, called
    with bucket, blob name, version, expiration in seconds and method. *)
Record world := {
  tables : database;
  available : nat → bool;
  generate_signed_url : string → string → string → Z → string → option string
}.

Record state := {
  round_trips : nat;                (* round trips made to the store *)
  acquired : nat;                   (* connections opened *)
  released : nat;                   (* connections closed *)
  cursor_rows : list (list value)   (* rows the cursor has not handed out *)
}.

Definition M (A : Type) : Type := state → (exn + A) * state.

#[global] Instance M_ret : MRet M := λ A a st, (inr a, st).

#[global] Instance M_bind : MBind M := λ A B f m st,
  match m st with
  | (inr a, st') => f a st'
  | (inl e, st') => (inl e, st')
  end.

Definition raise {A} (e : exn) : M A := λ st, (inl e, st).

Definition lift {A} (e : exn) (o : option A) : M A :=
  match o with
  | Some a => mret a
  | None => raise e
  end.

(** psycopg2 quotes each parameter before anything is sent: a [str]
    holding U+0000 cannot be quoted ("A string literal cannot contain NUL
    (0x00) characters"). *)
Definition adaptable (v : value) : bool :=
  match v with
  | VStr s => negb (has_nul s)
  | _ => true
  end.

Definition tick (st : state) : state :=
  Build_state (S (round_trips st)) (acquired st) (released st) (cursor_rows st).

Section Store.
Variable w : world.

(** [psycopg2.connect(...)] *)
Definition get_db_connection : M unit := λ st,
  if available w (round_trips st)
  then (inr (),
        Build_state (S (round_trips st)) (S (acquired st)) (released st)
          (cursor_rows st))
  else (inl OperationalError, tick st).

(** [conn.cursor()] *)
Definition cursor : M unit := λ st,
  (inr (), Build_state (round_trips st) (acquired st) (released st) []).

(** [cur.execute(text, params)]: the parameters are quoted, which raises
    [ValueError] with nothing sent; then the statement makes one round
    trip. *)
Definition execute (text : string) (params : list value) : M unit := λ st,
  if forallb adaptable params then
    if available w (round_trips st) then
      match run text params (tables w) with
      | inr rows =>
          (inr (),
           Build_state (S (round_trips st)) (acquired st) (released st) rows)
      | inl e => (inl (DatabaseError e), tick st)
      end
    else (inl OperationalError, tick st)
  else (inl ValueError, st).

(** [cur.fetchone()] *)
Definition fetchone : M (option (list value)) := λ st,
  match cursor_rows st with
  | [] => (inr None, st)
  | row :: rows =>
      (inr (Some row),
       Build_state (round_trips st) (acquired st) (released st) rows)
  end.

(** [cur.fetchall()] *)
Definition fetchall : M (list (list value)) := λ st,
  (inr (cursor_rows st),
   Build_state (round_trips st) (acquired st) (released st) []).

(** [cur.close()] *)
Definition cur_close : M unit := λ st,
  (inr (), Build_state (round_trips st) (acquired st) (released st) []).

(** [conn.close()] *)
Definition conn_close : M unit := λ st,
  (inr (),
   Build_state (round_trips st) (acquired st) (S (released st))
     (cursor_rows st)).

End Store.

(** [row[i]] *)
Definition item (row : list value) (i : nat) : M value :=
  lift IndexError (row !! i).

(** [timedelta(minutes=m)], in seconds. *)
Definition timedelta_minutes (m : Z) : Z := 60 * m.

End Runtime.

(** ** The handlers *)

Module App.
Import Py Schema Sql Runtime.

Definition nl : string := String (ascii_of_nat 10) "".

(** [storage_client.bucket("automatizacion-casillero")] *)
Definition bucket : string := "automatizacion-casillero".

(** [sep.join(parts)] *)
Fixpoint join (sep : string) (parts : list string) : string :=
  match parts with
  | [] => ""
  | [p] => p
  | p :: rest => p +:+ sep +:+ join sep rest
  end.

(** [{"url": signed_url}] *)
Record url_response := { resp_url : string }.

Record filters_response := {
  resp_codigo_organo : list value;
  resp_codigo_recurso : list value;
  resp_especialidad_expe : list value;
  resp_organo_detalle : list value;
  resp_nombre_juez : list value
}.

Record search_response := {
  total_count : value;
  items : gmap value value
}.

(** [[row[0] for row in rows]] *)
Definition column0 (rows : list (list value)) : M (list value) :=
  lift IndexError (mapM (λ row, row !! 0%nat) rows).

(** [{row[0]: row[1] for row in filas}] *)
Definition dict01 (filas : list (list value)) : M (gmap value value) :=
  pairs ← lift IndexError
            (mapM (λ row, a ← row !! 0%nat; b ← row !! 1%nat; Some (a, b)) filas);
  mret (dict_of_rows pairs).

Definition py_sorted (l : list value) : M (list value) :=
  lift TypeError (sorted l).

(** *** /search: query construction (lines 124-176) *)

Section Query.
Variables codigo_organo codigo_recurso especialidad_expe organo_detalle
  nombre_juez : option string.

Definition filtros_where : list string :=
  let filtros_where := [] in
  let filtros_where :=
    if truthy codigo_organo
    then filtros_where ++ ["s.codigo_organo = %s"] else filtros_where in
  let filtros_where :=
    if truthy codigo_recurso
    then filtros_where ++ ["s.codigo_recurso = %s"] else filtros_where in
  let filtros_where :=
    if truthy especialidad_expe
    then filtros_where ++ ["s.especialidad_expe = %s"] else filtros_where in
  let filtros_where :=
    if truthy organo_detalle
    then filtros_where ++ ["s.organo_detalle = %s"] else filtros_where in
  let filtros_where :=
    if truthy nombre_juez
    then filtros_where ++ ["j.nombre_juez = %s"] else filtros_where in
  filtros_where.

Definition params : list value :=
  let params := [] in
  let params :=
    if truthy codigo_organo
    then params ++ [of_option codigo_organo] else params in
  let params :=
    if truthy codigo_recurso
    then params ++ [of_option codigo_recurso] else params in
  let params :=
    if truthy especialidad_expe
    then params ++ [of_option especialidad_expe] else params in
  let params :=
    if truthy organo_detalle
    then params ++ [of_option organo_detalle] else params in
  let params :=
    if truthy nombre_juez
    then params ++ [of_option nombre_juez] else params in
  params.

Definition necesita_join_jueces : bool := is_not_None nombre_juez.

Definition from_clause : string :=
  let from_clause := "sentencias_y_autos s" in
  if necesita_join_jueces
  then from_clause +:+ " JOIN sentencias_jueces sj ON sj.ndetalle = s.ndetalle JOIN jueces j ON j.codigo = sj.codigo"
  else from_clause +:+ " LEFT JOIN sentencias_jueces sj ON sj.ndetalle = s.ndetalle LEFT JOIN jueces j ON j.codigo = sj.codigo".

Definition where_sql : string :=
  let where_sql := "" in
  match filtros_where with
  | [] => where_sql
  | _ => "WHERE " +:+ join " AND " filtros_where
  end.

Definition count_query : string :=
  nl +:+ "        SELECT COUNT(DISTINCT s.ndetalle)" +:+
  nl +:+ "        FROM " +:+ from_clause +:+
  nl +:+ "        " +:+ where_sql +:+ ";" +:+
  nl +:+ "    ".

Definition select_query : string :=
  nl +:+ "        SELECT DISTINCT s.ndetalle, s.url" +:+
  nl +:+ "        FROM " +:+ from_clause +:+
  nl +:+ "        " +:+ where_sql +:+
  nl +:+ "        ORDER BY s.ndetalle" +:+
  nl +:+ "        LIMIT %s OFFSET %s;" +:+
  nl +:+ "    ".

Definition params_with_pagination (limit offset : Z) : list value :=
  params ++ [VInt limit; VInt offset].

End Query.

Section Handlers.
Variable w : world.

(** *** GET /descargar/{ndetalle} *)
Definition generar_url (ndetalle : string) : M url_response :=
  _ ← get_db_connection w;
  _ ← cursor;
  _ ← execute w "SELECT url FROM sentencias_y_autos WHERE ndetalle = %s"
        [VStr ndetalle];
  result ← fetchone;
  _ ← cur_close;
  _ ← conn_close;
  match result with
  | None | Some [] | Some (VNone :: _) =>
      raise (HTTPException 404 "Archivo no encontrado")
  | Some (VInt _ :: _) => raise TypeError
  | Some (VStr blob_name :: _) =>
      signed_url ← lift SigningError
        (generate_signed_url w bucket blob_name
           "v4" (timedelta_minutes 15) "GET");
      mret {| resp_url := signed_url |}
  end.

(** *** GET /filters *)
Definition obtener_filtros : M filters_response :=
  _ ← get_db_connection w;
  _ ← cursor;
  _ ← execute w "SELECT DISTINCT codigo_organo FROM sentencias_y_autos WHERE codigo_organo IS NOT NULL;" [];
  rows ← fetchall;
  lista_organo ← column0 rows;
  _ ← execute w "SELECT DISTINCT codigo_recurso FROM sentencias_y_autos WHERE codigo_recurso IS NOT NULL;" [];
  rows ← fetchall;
  lista_recurso ← column0 rows;
  _ ← execute w "SELECT DISTINCT especialidad_expe FROM sentencias_y_autos WHERE especialidad_expe IS NOT NULL;" [];
  rows ← fetchall;
  lista_especialidad ← column0 rows;
  _ ← execute w "SELECT DISTINCT organo_detalle FROM sentencias_y_autos WHERE organo_detalle IS NOT NULL;" [];
  rows ← fetchall;
  lista_organo_detalle ← column0 rows;
  _ ← execute w
        (nl +:+ "        SELECT DISTINCT j.nombre_juez" +:+
         nl +:+ "        FROM jueces j" +:+
         nl +:+ "        JOIN sentencias_jueces sj ON sj.codigo = j.codigo" +:+
         nl +:+ "        JOIN sentencias_y_autos s ON s.ndetalle = sj.ndetalle" +:+
         nl +:+ "        WHERE j.nombre_juez IS NOT NULL;" +:+
         nl +:+ "    ") [];
  rows ← fetchall;
  lista_nombre_juez ← column0 rows;
  _ ← cur_close;
  _ ← conn_close;
  l1 ← py_sorted lista_organo;
  l2 ← py_sorted lista_recurso;
  l3 ← py_sorted lista_especialidad;
  l4 ← py_sorted lista_organo_detalle;
  l5 ← py_sorted lista_nombre_juez;
  mret {| resp_codigo_organo := l1;
          resp_codigo_recurso := l2;
          resp_especialidad_expe := l3;
          resp_organo_detalle := l4;
          resp_nombre_juez := l5 |}.

(** *** GET /search *)
Definition buscar_sentencias
    (codigo_organo codigo_recurso especialidad_expe organo_detalle
       nombre_juez : option string)
    (limit offset : Z) : M search_response :=
  _ ← get_db_connection w;
  _ ← cursor;
  let params :=
    params codigo_organo codigo_recurso especialidad_expe organo_detalle
      nombre_juez in
  let count_query :=
    count_query codigo_organo codigo_recurso especialidad_expe organo_detalle
      nombre_juez in
  _ ← execute w count_query params;
  row ← fetchone;
  total_count ← match row with
                 | Some row => item row 0
                 | None => raise TypeError
                 end;
  let select_query :=
    select_query codigo_organo codigo_recurso especialidad_expe organo_detalle
      nombre_juez in
  let params_with_pagination :=
    params_with_pagination codigo_organo codigo_recurso especialidad_expe
      organo_detalle nombre_juez limit offset in
  _ ← execute w select_query params_with_pagination;
  filas ← fetchall;
  lista_ndetalle ← dict01 filas;
  _ ← cur_close;
  _ ← conn_close;
  mret {| total_count := total_count; items := lista_ndetalle |}.

End Handlers.

(** A request starts with no round trip made and no connection open. *)
Definition start : state := Build_state 0 0 0 [].

(** A store that answers every round trip. *)
Definition always_up : nat → bool := λ _, true.

End App.

(** ** What a search request asks for

    The notions the statements about /search are phrased in: which rows of
    the join a request matches, and the identifiers of those rows. A
    filter takes part in the WHERE clause when it is a non-empty string;
    the join is chosen by [nombre_juez is not None]. *)

Module Request.
Import Py Schema Sql Runtime App.

(** An equality predicate that is present must hold of the column. *)
Definition wanted (filtro actual : option string) : bool :=
  match filtro with
  | Some (String a s) => bool_decide (actual = Some (String a s))
  | _ => true
  end.

(** The same, as a proposition: a filter given as a non-empty string [v]
    asks for the column to be [v]. *)
Definition asks (filtro actual : option string) : Prop :=
  ∀ v, filtro = Some v → v ≠ "" → actual = Some v.

Section Filters.
Variable db : database.
Variables codigo_organo codigo_recurso especialidad_expe organo_detalle
  nombre_juez : option string.

Definition fulfils (r : joined) : Prop :=
  asks codigo_organo (Schema.codigo_organo (r_s r))
  ∧ asks codigo_recurso (Schema.codigo_recurso (r_s r))
  ∧ asks especialidad_expe (Schema.especialidad_expe (r_s r))
  ∧ asks organo_detalle (Schema.organo_detalle (r_s r))
  ∧ asks nombre_juez (r_j r ≫= Schema.nombre_juez).

Definition fulfils_direct (s : sentencia) : Prop :=
  asks codigo_organo (Schema.codigo_organo s)
  ∧ asks codigo_recurso (Schema.codigo_recurso s)
  ∧ asks especialidad_expe (Schema.especialidad_expe s)
  ∧ asks organo_detalle (Schema.organo_detalle s).

(** Some filter carries a non-empty value that no stored record has. *)
Definition matches_nothing : Prop :=
  (∃ v, v ≠ "" ∧ codigo_organo = Some v
        ∧ ∀ s, s ∈ sentencias_y_autos db → Schema.codigo_organo s ≠ Some v)
  ∨ (∃ v, v ≠ "" ∧ codigo_recurso = Some v
        ∧ ∀ s, s ∈ sentencias_y_autos db → Schema.codigo_recurso s ≠ Some v)
  ∨ (∃ v, v ≠ "" ∧ especialidad_expe = Some v
        ∧ ∀ s, s ∈ sentencias_y_autos db → Schema.especialidad_expe s ≠ Some v)
  ∨ (∃ v, v ≠ "" ∧ organo_detalle = Some v
        ∧ ∀ s, s ∈ sentencias_y_autos db → Schema.organo_detalle s ≠ Some v)
  ∨ (∃ v, v ≠ "" ∧ nombre_juez = Some v
        ∧ ∀ j, j ∈ jueces db → Schema.nombre_juez j ≠ Some v).

Definition matches (r : joined) : bool :=
  wanted codigo_organo (Schema.codigo_organo (r_s r))
  && wanted codigo_recurso (Schema.codigo_recurso (r_s r))
  && wanted especialidad_expe (Schema.especialidad_expe (r_s r))
  && wanted organo_detalle (Schema.organo_detalle (r_s r))
  && wanted nombre_juez (r_j r ≫= Schema.nombre_juez).

Definition join_shape : source :=
  if is_not_None nombre_juez then SInner else SLeft.

Definition matching_rows : list joined :=
  filter (λ r, Is_true (matches r)) (rows_of join_shape db).

(** The distinct decision identifiers the request matches. *)
Definition matching_ids : gset string :=
  list_to_set ((λ r, ndetalle (r_s r)) <$> matching_rows).

(** The conditions of the WHERE clause with their parameters bound. *)
Definition filter_bound (c : column) (filtro : option string) : list bound :=
  if truthy filtro then [BEq c (of_option filtro)] else [].

Definition predicates : list bound :=
  filter_bound Col_codigo_organo codigo_organo
  ++ filter_bound Col_codigo_recurso codigo_recurso
  ++ filter_bound Col_especialidad_expe especialidad_expe
  ++ filter_bound Col_organo_detalle organo_detalle
  ++ filter_bound Col_nombre_juez nombre_juez.

(** The same conditions before binding, as the parser reads them. *)
Definition filter_cond (c : column) (filtro : option string) : list cond :=
  if truthy filtro then [CEq (Build_colref true c)] else [].

Definition conditions : list cond :=
  filter_cond Col_codigo_organo codigo_organo
  ++ filter_cond Col_codigo_recurso codigo_recurso
  ++ filter_cond Col_especialidad_expe especialidad_expe
  ++ filter_cond Col_organo_detalle organo_detalle
  ++ filter_cond Col_nombre_juez nombre_juez.

(** The statements the two query texts of /search stand for. *)
Definition count_statement : statement :=
  {| st_proj := PCountDistinct (Build_colref true Col_ndetalle);
     st_from := join_shape;
     st_where := conditions;
     st_order_by := None;
     st_paginated := false |}.

Definition page_statement : statement :=
  {| st_proj :=
       PSelect true [Build_colref true Col_ndetalle; Build_colref true Col_url];
     st_from := join_shape;
     st_where := conditions;
     st_order_by := Some (Build_colref true Col_ndetalle);
     st_paginated := true |}.

(** The rows the page query enumerates before LIMIT and OFFSET cut a
    window out of them. *)
Definition pair_row (r : joined) : list value :=
  [VStr (ndetalle (r_s r)); of_option (url (r_s r))].

Definition all_rows : list (list value) :=
  merge_sort (row_le 0) (remove_dups (pair_row <$> matching_rows)).

End Filters.

(** Every filter value of the request can be sent: none holds U+0000. *)
Definition sendable (co cr ee od nj : option string) : bool :=
  clean co && clean cr && clean ee && clean od && clean nj.

Definition window {A} (limit offset : Z) (l : list A) : list A :=
  take (Z.to_nat limit) (drop (Z.to_nat offset) l).

Definition row_count (n : Z) : Prop := (0 ≤ n < 2 ^ 63)%Z.

(** A decision is linked to a judge through the association table. *)
Definition has_judge (db : database) (d : string) : Prop :=
  ∃ sj j, sj ∈ sentencias_jueces db ∧ j ∈ jueces db
          ∧ sj_ndetalle sj = d ∧ codigo j = sj_codigo sj.


(** [row[0], row[1]] of a two-cell row. *)
Definition cells01 (row : list value) : value * value :=
  (key 0 row, key 1 row).

(** The store answers the round trips [n], [n+1], .., [n+k-1]. *)
Fixpoint answers (w : world) (n k : nat) : bool :=
  match k with
  | O => true
  | S k' => available w n && answers w (S n) k'
  end.

Definition strictly_below : relation value :=
  λ a b, value_le_rel a b ∧ a ≠ b.

(** [l] lists exactly the strings of [P], ascending, each once. *)
Definition lists_exactly (P : string → Prop) (l : list value) : Prop :=
  StronglySorted strictly_below l ∧ ∀ v, v ∈ l ↔ ∃ s, v = VStr s ∧ P s.

(** *** /filters and /descargar *)

(** The rows of [SELECT DISTINCT c .. WHERE c IS NOT NULL] for a column
    holding [vals]. *)
Definition distinct_rows (vals : list (option string)) : list (list value) :=
  (λ v, [VStr v]) <$> remove_dups (omap id vals).

(** What [sorted] returns on a list of strings. *)
Definition sort_values (l : list value) : list value :=
  if bool_decide (length l ≤ 1)%nat then l else merge_sort value_le_rel l.

(** One list of the catalogue. *)
Definition catalogue (vals : list (option string)) : list value :=
  sort_values (VStr <$> remove_dups (omap id vals)).

(** The judge names of the judges joined to an association of a decision. *)
Definition linked_judge_names (db : database) : list (option string) :=
  (λ r, r_j r ≫= Schema.nombre_juez) <$> rows_of SJueces db.

Definition select_url : statement :=
  {| st_proj := PSelect false [Build_colref false Col_url];
     st_from := SPlain;
     st_where := [CEq (Build_colref false Col_ndetalle)];
     st_order_by := None;
     st_paginated := false |}.

Definition select_distinct (src : source) (c : colref) : statement :=
  {| st_proj := PSelect true [c];
     st_from := src;
     st_where := [CNotNull c];
     st_order_by := None;
     st_paginated := false |}.

(** The decision records with a given identifier, in table order. *)
Definition records (db : database) (d : string) : list sentencia :=
  filter (λ s, ndetalle s = d) (sentencias_y_autos db).

Definition not_found : exn := HTTPException 404 "Archivo no encontrado".

End Request.

(** ** A small registry to run the handlers on *)

Module Sample.
Import Py Schema Sql Runtime App.

(** Three decisions: "002" has two judges, "003" an association to a
    judge code that is not in [jueces], "001" none and no document. *)
Definition decisions : list sentencia :=
  [ Build_sentencia "002" (Some "A") (Some "R1") None (Some "D") (Some "p/2.pdf");
    Build_sentencia "001" (Some "B") None None None None;
    Build_sentencia "003" (Some "A") None None None (Some "p/3.pdf") ].

Definition registry : database :=
  {| sentencias_y_autos := decisions;
     sentencias_jueces :=
       [ Build_sentencia_juez "002" "j1"; Build_sentencia_juez "002" "j2";
         Build_sentencia_juez "003" "j9" ];
     jueces :=
       [ Build_juez "j1" (Some "Ana"); Build_juez "j2" (Some "Luis");
         Build_juez "j3" (Some "Zed") ];
     stored_text := eq_refl |}.

(** The same judges and associations, and no decision. *)
Definition registry_without_decisions : database :=
  {| sentencias_y_autos := [];
     sentencias_jueces := sentencias_jueces registry;
     jueces := jueces registry;
     stored_text := eq_refl |}.

(** A string that holds U+0000, as [%00] in a URL decodes to. *)
Definition with_nul : string := String (ascii_of_nat 0) "x".

(** A signer that writes its arguments into the link. *)
Definition signer (bucket blob version : string) (seconds : Z) (method : string)
  : option string :=
  Some ("https://" +:+ bucket +:+ "/" +:+ blob +:+ "?" +:+ version +:+ "&" +:+ method).

Definition world_up : world :=
  {| tables := registry; available := always_up; generate_signed_url := signer |}.

(** The store answers the connect and then goes away. *)
Definition world_lost : world :=
  {| tables := registry;
     available := λ n, bool_decide (n = 0%nat);
     generate_signed_url := signer |}.

End Sample.

(** ** Using the handlers together *)

Module Usage.
Import Py Schema Sql Runtime App Request.

(** The number of [%s] in a statement text: as many parameters as
    [cur.execute] takes for it. *)
Fixpoint placeholders (text : string) : nat :=
  match text with
  | EmptyString => 0
  | String c rest =>
      match rest with
      | EmptyString => 0
      | String c' rest' =>
          if Ascii.eqb c "%" && Ascii.eqb c' "s"
          then S (placeholders rest')
          else placeholders rest
      end
  end.



(** What /descargar answers for a decision whose storage path cell is [v]. *)
Definition download_of (w : world) (v : value) : exn + url_response :=
  match v with
  | VNone => inl not_found
  | VInt _ => inl TypeError
  | VStr blob_name =>
      match generate_signed_url w bucket blob_name "v4"
              (timedelta_minutes 15) "GET" with
      | Some signed_url => inr {| resp_url := signed_url |}
      | None => inl SigningError
      end
  end.

End Usage.

(** * Properties *)

(** ** The order on strings and cells *)

Module OrderFacts.
Import Py Sql.

Lemma str_le_refl a : str_le a a = true.
Proof.
  induction a as [|x a IH]; simpl; [done|].
  rewrite N.ltb_irrefl, N.eqb_refl. done.
Qed.

Lemma str_le_total a b : str_le a b = true ∨ str_le b a = true.
Proof.
  revert b. induction a as [|x a IH]; intros [|y b]; simpl; auto.
  destruct (N.ltb_spec (N_of_ascii x) (N_of_ascii y)); [auto|].
  destruct (N.ltb_spec (N_of_ascii y) (N_of_ascii x)); [auto|].
  assert (N_of_ascii x = N_of_ascii y) as -> by lia.
  rewrite N.eqb_refl. apply IH.
Qed.

Lemma str_le_trans a b c :
  str_le a b = true → str_le b c = true → str_le a c = true.
Proof.
  revert b c. induction a as [|x a IH]; intros [|y b] [|z c]; simpl; try done.
  destruct (N.ltb_spec (N_of_ascii x) (N_of_ascii y)) as [Hxy|Hxy].
  - intros _.
    destruct (N.ltb_spec (N_of_ascii y) (N_of_ascii z)) as [Hyz|Hyz].
    + intros _. assert ((N_of_ascii x <? N_of_ascii z)%N = true) as ->; [|done].
      apply N.ltb_lt. lia.
    + destruct (N.eqb_spec (N_of_ascii y) (N_of_ascii z)) as [Heq|]; [|done].
      intros _. rewrite <- Heq.
      assert ((N_of_ascii x <? N_of_ascii y)%N = true) as ->; [|done].
      by apply N.ltb_lt.
  - destruct (N.eqb_spec (N_of_ascii x) (N_of_ascii y)) as [Heq|]; [|done].
    rewrite Heq. intros Hab.
    destruct (N.ltb_spec (N_of_ascii y) (N_of_ascii z)); [done|].
    destruct (N.eqb_spec (N_of_ascii y) (N_of_ascii z)); [|done].
    intros Hbc. by apply (IH b c).
Qed.


#[global] Instance value_le_total : Total value_le_rel.
Proof.
  intros [|s|n] [|t|m]; unfold value_le_rel; simpl; auto.
  - destruct (str_le_total s t) as [->| ->]; simpl; auto.
  - destruct (Z.leb_spec n m); simpl; [auto|].
    right. apply Is_true_true. apply Z.leb_le. lia.
Qed.

#[global] Instance value_le_trans : Transitive value_le_rel.
Proof.
  intros [|s|n] [|t|m] [|u|k]; unfold value_le_rel; simpl; try done.
  - rewrite !Is_true_true. apply str_le_trans.
  - rewrite !Is_true_true, !Z.leb_le. lia.
Qed.


#[global] Instance row_le_total i : Total (row_le i).
Proof. intros r1 r2. unfold row_le. apply (total value_le_rel). Qed.

#[global] Instance row_le_trans i : Transitive (row_le i).
Proof. intros r1 r2 r3. unfold row_le. apply (transitivity (R:=value_le_rel)). Qed.

End OrderFacts.

(** ** The query texts of /search and what the store reads in them *)

Module TextFacts.
Import Py Schema Sql Runtime App Request.

Section Filters.
Variables co cr ee od nj : option string.

Lemma parse_count_query :
  parse (count_query co cr ee od nj) = Some (count_statement co cr ee od nj).
Proof.
  unfold count_query, where_sql, filtros_where, from_clause,
    necesita_join_jueces, count_statement, conditions, filter_cond, join_shape.
  generalize (truthy co), (truthy cr), (truthy ee), (truthy od), (truthy nj),
    (is_not_None nj).
  intros [] [] [] [] [] []; vm_compute; reflexivity.
Qed.

Lemma parse_select_query :
  parse (select_query co cr ee od nj) = Some (page_statement co cr ee od nj).
Proof.
  unfold select_query, where_sql, filtros_where, from_clause,
    necesita_join_jueces, page_statement, conditions, filter_cond, join_shape.
  generalize (truthy co), (truthy cr), (truthy ee), (truthy od), (truthy nj),
    (is_not_None nj).
  intros [] [] [] [] [] []; vm_compute; reflexivity.
Qed.

End Filters.

End TextFacts.

(** ** What the store answers to the two queries of /search *)

Module StoreFacts.
Import Py Schema Sql Runtime App Request TextFacts.

#[global] Instance VStr_inj : Inj (=) (=) VStr.
Proof. by intros ?? [=]. Qed.

Lemma of_option_inj a b : of_option a = of_option b → a = b.
Proof. destruct a, b; simpl; congruence. Qed.

(** What the tables hold is free of NUL. *)
Lemma stored_sentencia db s :
  s ∈ sentencias_y_autos db → clean_sentencia s = true.
Proof.
  intros Hs. pose proof (stored_text db) as H.
  apply andb_true_iff in H as [[H _]%andb_true_iff _].
  rewrite forallb_forall in H. apply H. by apply list_elem_of_In.
Qed.

Lemma stored_juez db j : j ∈ jueces db → clean_juez j = true.
Proof.
  intros Hj. pose proof (stored_text db) as H.
  apply andb_true_iff in H as [_ H].
  rewrite forallb_forall in H. apply H. by apply list_elem_of_In.
Qed.

Lemma stored_ndetalle db s :
  s ∈ sentencias_y_autos db → has_nul (ndetalle s) = false.
Proof.
  intros Hs%stored_sentencia. unfold clean_sentencia in Hs.
  rewrite !andb_true_iff in Hs.
  destruct Hs as [[[[[Hs _] _] _] _] _]. by apply negb_true_iff.
Qed.

Lemma remove_dups_fmap_inj {A B} `{EqDecision A, EqDecision B}
    (f : A → B) `{!Inj (=) (=) f} (l : list A) :
  remove_dups (f <$> l) = f <$> remove_dups l.
Proof.
  induction l as [|x l IH]; csimpl; [done|].
  destruct (decide_rel elem_of (f x) (f <$> l)) as [Hin|Hin];
    destruct (decide_rel elem_of x l) as [Hin'|Hin']; csimpl.
  - apply IH.
  - apply list_elem_of_fmap_inj in Hin; [done|apply _].
  - destruct Hin. by apply list_elem_of_fmap_2.
  - by rewrite IH.
Qed.

Lemma size_list_to_set_remove_dups (l : list string) :
  size (list_to_set (C:=gset string) l) = length (remove_dups l).
Proof.
  rewrite <- (size_list_to_set (C:=gset string) (remove_dups l)).
  - f_equal. apply set_eq. intros x.
    by rewrite !elem_of_list_to_set, elem_of_remove_dups.
  - apply NoDup_remove_dups.
Qed.

Section Filters.
Variable db : database.
Variables co cr ee od nj : option string.

Lemma count_statement_scoped :
  well_scoped (count_statement co cr ee od nj) = true.
Proof.
  unfold count_statement, conditions, filter_cond, join_shape, well_scoped.
  simpl.
  generalize (truthy co), (truthy cr), (truthy ee), (truthy od), (truthy nj),
    (is_not_None nj).
  by intros [] [] [] [] [] [].
Qed.

Lemma page_statement_scoped :
  well_scoped (page_statement co cr ee od nj) = true.
Proof.
  unfold page_statement, conditions, filter_cond, join_shape, well_scoped.
  simpl.
  generalize (truthy co), (truthy cr), (truthy ee), (truthy od), (truthy nj),
    (is_not_None nj).
  by intros [] [] [] [] [] [].
Qed.

Lemma bind_conditions rest :
  bind (conditions co cr ee od nj) (params co cr ee od nj ++ rest)
  = Some (predicates co cr ee od nj, rest).
Proof.
  unfold conditions, params, predicates, filter_cond, filter_bound.
  destruct co as [[|??]|], cr as [[|??]|], ee as [[|??]|], od as [[|??]|],
    nj as [[|??]|]; reflexivity.
Qed.

Lemma holds_filter_bound (r : joined) c x actual :
  cell c r = of_option actual →
  forallb (holds r) (filter_bound c x) = wanted x actual.
Proof.
  intros Hcell. unfold filter_bound, wanted.
  destruct x as [[|a s]|]; simpl; try done.
  rewrite Hcell, andb_true_r.
  apply bool_decide_ext. split.
  - apply (of_option_inj _ (Some _)).
  - by intros ->.
Qed.

Lemma satisfies_predicates r :
  satisfies (predicates co cr ee od nj) r = matches co cr ee od nj r.
Proof.
  unfold satisfies, predicates, matches.
  rewrite !forallb_app.
  rewrite (holds_filter_bound r Col_codigo_organo co _ eq_refl).
  rewrite (holds_filter_bound r Col_codigo_recurso cr _ eq_refl).
  rewrite (holds_filter_bound r Col_especialidad_expe ee _ eq_refl).
  rewrite (holds_filter_bound r Col_organo_detalle od _ eq_refl).
  rewrite (holds_filter_bound r Col_nombre_juez nj _ eq_refl).
  by rewrite !andb_assoc.
Qed.

Lemma selected_matching :
  selected (join_shape nj) (predicates co cr ee od nj) db
  = matching_rows db co cr ee od nj.
Proof.
  unfold selected, matching_rows. apply list_filter_iff.
  intros r. by rewrite satisfies_predicates.
Qed.

Lemma run_count_query :
  run (count_query co cr ee od nj) (params co cr ee od nj) db
  = inr [[VInt (Z.of_nat (size (matching_ids db co cr ee od nj)))]].
Proof.
  unfold run. rewrite parse_count_query. unfold eval.
  rewrite count_statement_scoped.
  replace (st_where (count_statement co cr ee od nj))
    with (conditions co cr ee od nj) by done.
  rewrite <- (app_nil_r (params co cr ee od nj)), bind_conditions.
  cbn [count_statement st_from st_proj st_order_by st_paginated order
         project paginate col].
  rewrite selected_matching.
  do 4 f_equal.
  unfold matching_ids. rewrite size_list_to_set_remove_dups.
  rewrite <- (length_fmap VStr), <- (remove_dups_fmap_inj VStr).
  rewrite <- list_fmap_compose. do 3 f_equal.
  induction (matching_rows db co cr ee od nj) as [|r l IH]; [done|].
  csimpl. rewrite filter_cons_True by done. f_equal. apply IH.
Qed.

Lemma run_select_query limit offset :
  run (select_query co cr ee od nj)
    (params co cr ee od nj ++ [VInt limit; VInt offset]) db
  = if is_row_count limit && is_row_count offset
    then inr (window limit offset (all_rows db co cr ee od nj))
    else inl DataError.
Proof.
  unfold run. rewrite parse_select_query. unfold eval.
  rewrite page_statement_scoped.
  replace (st_where (page_statement co cr ee od nj))
    with (conditions co cr ee od nj) by done.
  rewrite bind_conditions.
  cbn [page_statement st_from st_proj st_order_by st_paginated].
  rewrite selected_matching.
  reflexivity.
Qed.

End Filters.

End StoreFacts.

(** ** The rows of the joins and of the page *)

Module PageFacts.
Import Py Schema Sql Runtime App Request OrderFacts.

Lemma elem_of_rows_of_inner db r :
  r ∈ rows_of SInner db ↔
  ∃ s sj j, s ∈ sentencias_y_autos db ∧ sj ∈ sentencias_jueces db
    ∧ j ∈ jueces db ∧ sj_ndetalle sj = ndetalle s ∧ codigo j = sj_codigo sj
    ∧ r = Build_joined s (Some sj) (Some j).
Proof.
  unfold rows_of, asociaciones, jueces_de. split.
  - intros Hr.
    apply list_elem_of_bind in Hr as (s & Hr & Hs).
    apply list_elem_of_bind in Hr as (sj & Hr & Hsj).
    apply list_elem_of_bind in Hr as (j & Hr & Hj).
    apply list_elem_of_singleton in Hr.
    apply list_elem_of_filter in Hsj as [? ?].
    apply list_elem_of_filter in Hj as [? ?].
    by exists s, sj, j.
  - intros (s & sj & j & Hs & Hsj & Hj & E1 & E2 & ->).
    apply list_elem_of_bind. exists s. split; [|done].
    apply list_elem_of_bind. exists sj. split;
      [|by apply list_elem_of_filter].
    apply list_elem_of_bind. exists j. split;
      [|by apply list_elem_of_filter].
    by apply list_elem_of_singleton.
Qed.

(** The LEFT JOIN chain keeps the decisions and only them. *)
Lemma rows_of_left_decision db r :
  r ∈ rows_of SLeft db → r_s r ∈ sentencias_y_autos db.
Proof.
  unfold rows_of. intros Hr.
  apply list_elem_of_bind in Hr as (s & Hr & Hs).
  destruct (asociaciones db s) as [|sj0 sjs].
  { apply list_elem_of_singleton in Hr. by subst. }
  apply list_elem_of_bind in Hr as (sj & Hr & _).
  destruct (jueces_de db sj) as [|j0 js].
  { apply list_elem_of_singleton in Hr. by subst. }
  apply list_elem_of_bind in Hr as (j & Hr & _).
  apply list_elem_of_singleton in Hr. by subst.
Qed.

Lemma rows_of_left_total db s :
  s ∈ sentencias_y_autos db → ∃ r, r ∈ rows_of SLeft db ∧ r_s r = s.
Proof.
  intros Hs. unfold rows_of.
  destruct (asociaciones db s) as [|sj sjs] eqn:Hsj.
  { exists (Build_joined s None None). split; [|done].
    apply list_elem_of_bind. exists s. rewrite Hsj. split; [|done].
    by apply list_elem_of_singleton. }
  destruct (jueces_de db sj) as [|j js] eqn:Hj.
  { exists (Build_joined s (Some sj) None). split; [|done].
    apply list_elem_of_bind. exists s. rewrite Hsj. split; [|done].
    apply list_elem_of_bind. exists sj. rewrite Hj. split;
      [by apply list_elem_of_singleton|by left]. }
  exists (Build_joined s (Some sj) (Some j)). split; [|done].
  apply list_elem_of_bind. exists s. rewrite Hsj. split; [|done].
  apply list_elem_of_bind. exists sj. rewrite Hj. split; [|by left].
  apply list_elem_of_bind. exists j. split; [|by left].
  by apply list_elem_of_singleton.
Qed.

Section Filters.
Variable db : database.
Variables co cr ee od nj : option string.

Lemma elem_of_matching_rows r :
  r ∈ matching_rows db co cr ee od nj ↔
  r ∈ rows_of (join_shape nj) db ∧ matches co cr ee od nj r = true.
Proof.
  unfold matching_rows. rewrite list_elem_of_filter, Is_true_true. tauto.
Qed.

Lemma elem_of_matching_ids d :
  d ∈ matching_ids db co cr ee od nj ↔
  ∃ r, r ∈ rows_of (join_shape nj) db ∧ ndetalle (r_s r) = d
       ∧ matches co cr ee od nj r = true.
Proof.
  unfold matching_ids. rewrite elem_of_list_to_set, list_elem_of_fmap.
  split.
  - intros (r & -> & Hr). apply elem_of_matching_rows in Hr as [? ?].
    by exists r.
  - intros (r & Hr & <- & Hm). exists r. split; [done|].
    by apply elem_of_matching_rows.
Qed.

Lemma all_rows_Permutation :
  all_rows db co cr ee od nj
  ≡ₚ remove_dups (pair_row <$> matching_rows db co cr ee od nj).
Proof. apply merge_sort_Permutation. Qed.

Lemma elem_of_all_rows row :
  row ∈ all_rows db co cr ee od nj ↔
  ∃ r, r ∈ matching_rows db co cr ee od nj ∧ row = pair_row r.
Proof.
  rewrite all_rows_Permutation, elem_of_remove_dups, list_elem_of_fmap.
  split.
  - intros (r & -> & Hr). by exists r.
  - intros (r & Hr & ->). by exists r.
Qed.

Lemma NoDup_all_rows : NoDup (all_rows db co cr ee od nj).
Proof. rewrite all_rows_Permutation. apply NoDup_remove_dups. Qed.

Lemma all_rows_sorted : StronglySorted (row_le 0) (all_rows db co cr ee od nj).
Proof. apply StronglySorted_merge_sort; apply _. Qed.

Lemma all_rows_two_cells :
  Forall (λ row, length row = 2%nat) (all_rows db co cr ee od nj).
Proof.
  apply Forall_forall. intros row Hrow.
  apply elem_of_all_rows in Hrow as (r & _ & ->). done.
Qed.

End Filters.

Lemma window_sublist {A} limit offset (l : list A) :
  window limit offset l `sublist_of` l.
Proof.
  unfold window. etransitivity; [apply sublist_take|apply sublist_drop].
Qed.

End PageFacts.

(** ** Running the handlers *)

Module RunFacts.
Import Py Schema Sql Runtime App Request StoreFacts PageFacts.

Lemma dict01_two_cells (filas : list (list value)) st :
  Forall (λ row, length row = 2%nat) filas →
  dict01 filas st = (inr (dict_of_rows (cells01 <$> filas)), st).
Proof.
  intros Hall. unfold dict01.
  assert (mapM (λ row : list value,
                  a ← row !! 0%nat; b ← row !! 1%nat; Some (a, b)) filas
          = Some (cells01 <$> filas)) as Hm.
  { apply mapM_Some. induction Hall as [|row l Hrow _ IH]; csimpl;
      constructor; [|done].
    destruct row as [|a [|b [|??]]]; done. }
  by rewrite Hm.
Qed.

(** The parameters of /search can be quoted when no filter holds NUL. *)
Lemma params_adaptable co cr ee od nj :
  forallb adaptable (params co cr ee od nj) = sendable co cr ee od nj.
Proof.
  assert (∀ x, forallb adaptable (if truthy x then [of_option x] else [])
               = clean x) as Hone.
  { intros [[|a x]|]; try done. cbn. by rewrite andb_true_r. }
  assert (params co cr ee od nj
          = (if truthy co then [of_option co] else [])
            ++ (if truthy cr then [of_option cr] else [])
            ++ (if truthy ee then [of_option ee] else [])
            ++ (if truthy od then [of_option od] else [])
            ++ (if truthy nj then [of_option nj] else [])) as ->.
  { unfold params.
    by destruct (truthy co), (truthy cr), (truthy ee), (truthy od),
      (truthy nj). }
  rewrite !forallb_app, !Hone. unfold sendable. by rewrite !andb_assoc.
Qed.

Lemma params_with_pagination_adaptable co cr ee od nj limit offset :
  forallb adaptable (params_with_pagination co cr ee od nj limit offset)
  = sendable co cr ee od nj.
Proof.
  unfold params_with_pagination.
  rewrite forallb_app, params_adaptable. cbn. by rewrite andb_true_r.
Qed.

Local Opaque count_query select_query params run dict01.

(** /search, whatever the store does: the response when the filter values
    can be sent, every round trip is answered and the row counts are
    valid, the exception otherwise, and the connections opened and closed
    in each case. *)
Lemma buscar_sentencias_run w co cr ee od nj limit offset st :
  buscar_sentencias w co cr ee od nj limit offset st =
  let n := round_trips st in
  if available w n then
    if negb (sendable co cr ee od nj) then
      (inl ValueError,
       Build_state (1 + n) (S (acquired st)) (released st) [])
    else if available w (S n) then
      if available w (S (S n)) then
        if is_row_count limit && is_row_count offset then
          (inr {| total_count :=
                    VInt (Z.of_nat
                            (size (matching_ids (tables w) co cr ee od nj)));
                  items :=
                    dict_of_rows
                      (cells01 <$> window limit offset
                                     (all_rows (tables w) co cr ee od nj)) |},
           Build_state (3 + n) (S (acquired st)) (S (released st)) [])
        else
          (inl (DatabaseError DataError),
           Build_state (3 + n) (S (acquired st)) (released st) [])
      else
        (inl OperationalError,
         Build_state (3 + n) (S (acquired st)) (released st) [])
    else
      (inl OperationalError,
       Build_state (2 + n) (S (acquired st)) (released st) [])
  else
    (inl OperationalError,
     Build_state (1 + n) (acquired st) (released st) (cursor_rows st)).
Proof.
  unfold buscar_sentencias, mbind, M_bind, get_db_connection.
  cbn zeta.
  destruct (available w (round_trips st)) eqn:A0; [|done].
  unfold cursor, execute at 1. cbn [round_trips tables].
  rewrite params_adaptable.
  destruct (sendable co cr ee od nj) eqn:Hsend; [|done]. cbn [negb].
  destruct (available w (S (round_trips st))) eqn:A1; [|done].
  rewrite run_count_query.
  unfold fetchone, item, lift, mret, M_ret. cbn [cursor_rows lookup list_lookup].
  unfold execute. cbn [round_trips].
  rewrite params_with_pagination_adaptable, Hsend.
  destruct (available w (S (S (round_trips st)))) eqn:A2; [|done].
  unfold params_with_pagination. rewrite run_select_query.
  destruct (is_row_count limit && is_row_count offset); [|done].
  unfold fetchall. cbn [cursor_rows round_trips acquired released].
  rewrite dict01_two_cells.
  - done.
  - apply Forall_take, Forall_drop, all_rows_two_cells.
Qed.

End RunFacts.

(** ** /search *)

Module Search.
Import Py Schema Sql Runtime App Request OrderFacts TextFacts StoreFacts
  PageFacts RunFacts.

Lemma is_row_count_true n : row_count n → is_row_count n = true.
Proof.
  intros [? ?]. unfold is_row_count.
  apply andb_true_intro. split; [by apply Z.leb_le|by apply Z.ltb_lt].
Qed.

Lemma answers_three w n :
  answers w n 3 = true →
  available w n = true ∧ available w (S n) = true
  ∧ available w (S (S n)) = true.
Proof.
  simpl. rewrite !andb_true_iff. tauto.
Qed.

Lemma wanted_asks filtro actual : wanted filtro actual = true ↔ asks filtro actual.
Proof.
  unfold wanted, asks. destruct filtro as [[|a s]|].
  - split; [|done]. by intros _ v [= <-] ?.
  - rewrite bool_decide_eq_true. split.
    + by intros -> v [= <-] _.
    + intros H. by apply H.
  - split; [|done]. by intros _ v [=].
Qed.

Lemma matches_fulfils co cr ee od nj r :
  matches co cr ee od nj r = true ↔ fulfils co cr ee od nj r.
Proof.
  unfold matches, fulfils. rewrite !andb_true_iff, !wanted_asks. tauto.
Qed.

Lemma fulfils_without_judge co cr ee od r :
  fulfils co cr ee od None r ↔ fulfils_direct co cr ee od (r_s r).
Proof.
  unfold fulfils, fulfils_direct, asks. split.
  - tauto.
  - intros (? & ? & ? & ?). repeat split; done.
Qed.

(** The response of /search when the store answers and the row counts
    are valid. *)
Lemma buscar_sentencias_ok w co cr ee od nj limit offset st :
  answers w (round_trips st) 3 = true →
  sendable co cr ee od nj = true →
  row_count limit → row_count offset →
  buscar_sentencias w co cr ee od nj limit offset st
  = (inr {| total_count :=
              VInt (Z.of_nat (size (matching_ids (tables w) co cr ee od nj)));
            items :=
              dict_of_rows
                (cells01 <$> window limit offset
                               (all_rows (tables w) co cr ee od nj)) |},
     Build_state (3 + round_trips st) (S (acquired st)) (S (released st)) []).
Proof.
  intros (A0 & A1 & A2)%answers_three Hsend
    Hl%is_row_count_true Ho%is_row_count_true.
  rewrite buscar_sentencias_run. cbn zeta.
  by rewrite A0, Hsend, A1, A2, Hl, Ho.
Qed.

(** Whenever /search returns a response, it is this one. *)
Lemma buscar_sentencias_returns w co cr ee od nj limit offset st r st' :
  buscar_sentencias w co cr ee od nj limit offset st = (inr r, st') →
  r = {| total_count :=
           VInt (Z.of_nat (size (matching_ids (tables w) co cr ee od nj)));
         items :=
           dict_of_rows
             (cells01 <$> window limit offset
                            (all_rows (tables w) co cr ee od nj)) |}.
Proof.
  rewrite buscar_sentencias_run. cbn zeta.
  destruct (available w (round_trips st)); [|done].
  destruct (sendable co cr ee od nj); [|done]. cbn [negb].
  destruct (available w (S (round_trips st))); [|done].
  destruct (available w (S (S (round_trips st)))); [|done].
  destruct (is_row_count limit && is_row_count offset); [|done].
  by intros [= <- _].
Qed.

(** A request that is not sent: some filter value holds NUL. *)
Lemma buscar_sentencias_unsendable w co cr ee od nj limit offset st :
  available w (round_trips st) = true →
  sendable co cr ee od nj = false →
  buscar_sentencias w co cr ee od nj limit offset st
  = (inl ValueError,
     Build_state (1 + round_trips st) (S (acquired st)) (released st) []).
Proof.
  intros A0 Hsend. rewrite buscar_sentencias_run. cbn zeta.
  by rewrite A0, Hsend.
Qed.

Lemma rows_of_decision db nj r :
  r ∈ rows_of (join_shape nj) db → r_s r ∈ sentencias_y_autos db.
Proof.
  destruct nj as [x|]; cbn.
  - by intros (s & sj & j & ? & _ & _ & _ & _ & ->)%elem_of_rows_of_inner.
  - apply rows_of_left_decision.
Qed.

Lemma matching_rows_decision db co cr ee od nj r :
  r ∈ matching_rows db co cr ee od nj → r_s r ∈ sentencias_y_autos db.
Proof. intros [Hr _]%elem_of_matching_rows. by eapply rows_of_decision. Qed.

Lemma NoDup_fmap_inj_on {A B} (f : A → B) (l : list A) x y :
  NoDup (f <$> l) → x ∈ l → y ∈ l → f x = f y → x = y.
Proof.
  induction l as [|z l IH]; csimpl; intros Hnd Hx Hy Hf.
  { by apply not_elem_of_nil in Hx. }
  apply NoDup_cons in Hnd as [Hz Hnd].
  apply elem_of_cons in Hx as [->|Hx]; apply elem_of_cons in Hy as [->|Hy].
  - done.
  - destruct Hz. rewrite Hf. by apply list_elem_of_fmap_2.
  - destruct Hz. rewrite <- Hf. by apply list_elem_of_fmap_2.
  - by apply IH.
Qed.

(** With unique identifiers, two rows of the page query with the same
    identifier are the same row. *)
Lemma all_rows_key_inj db co cr ee od nj row1 row2 :
  NoDup (ndetalle <$> sentencias_y_autos db) →
  row1 ∈ all_rows db co cr ee od nj → row2 ∈ all_rows db co cr ee od nj →
  key 0 row1 = key 0 row2 → row1 = row2.
Proof.
  intros Hnd (r1 & Hr1 & ->)%elem_of_all_rows
    (r2 & Hr2 & ->)%elem_of_all_rows [= Hk].
  unfold pair_row.
  by rewrite (NoDup_fmap_inj_on ndetalle _ (r_s r1) (r_s r2) Hnd
                (matching_rows_decision _ _ _ _ _ _ _ Hr1)
                (matching_rows_decision _ _ _ _ _ _ _ Hr2) Hk).
Qed.

(** With unique identifiers every identifier heads one row of the page
    query. *)
Lemma all_rows_keys_NoDup db co cr ee od nj :
  NoDup (ndetalle <$> sentencias_y_autos db) →
  NoDup (key 0 <$> all_rows db co cr ee od nj).
Proof.
  intros Hnd. apply NoDup_fmap_2_strong; [|apply NoDup_all_rows].
  intros row1 row2. by apply all_rows_key_inj.
Qed.


(** A dict comprehension keeps, for each key, the value of its last row. *)
Lemma dict_of_rows_untouched (l : list (value * value)) (d : gmap value value) k :
  k ∉ l.*1 → foldl (λ d row, <[row.1 := row.2]> d) d l !! k = d !! k.
Proof.
  revert d. induction l as [|[k' v'] l IH]; intros d Hk; [done|].
  simpl in *. apply not_elem_of_cons in Hk as [? ?].
  rewrite IH by done. by apply lookup_insert_ne.
Qed.


Lemma dict_of_rows_absent l k : k ∉ l.*1 → dict_of_rows l !! k = None.
Proof.
  intros Hk. unfold dict_of_rows. by rewrite dict_of_rows_untouched.
Qed.

Lemma remove_dups_length_ext {A} `{EqDecision A} (l1 l2 : list A) :
  (∀ x, x ∈ l1 ↔ x ∈ l2) → length (remove_dups l1) = length (remove_dups l2).
Proof.
  intros Hext. apply Permutation_length, NoDup_Permutation.
  - apply NoDup_remove_dups.
  - apply NoDup_remove_dups.
  - intros x. by rewrite !elem_of_remove_dups.
Qed.

(** The distinct identifiers among all rows of the page query are as many
    as the count query counts. *)
Lemma all_rows_distinct_ids db co cr ee od nj :
  length (remove_dups (key 0 <$> all_rows db co cr ee od nj))
  = size (matching_ids db co cr ee od nj).
Proof.
  unfold matching_ids. rewrite size_list_to_set_remove_dups.
  rewrite <- (length_fmap VStr), <- (remove_dups_fmap_inj VStr).
  apply remove_dups_length_ext. intros v.
  rewrite !list_elem_of_fmap. split.
  - intros (row & -> & (r & Hr & ->)%elem_of_all_rows).
    exists (ndetalle (r_s r)). split; [done|].
    apply list_elem_of_fmap. by exists r.
  - intros (d & -> & (r & -> & Hr)%list_elem_of_fmap).
    exists (pair_row r). split; [done|].
    apply elem_of_all_rows. by exists r.
Qed.

(** C1. For every subset of the five filters there is one set of decision
    identifiers: those of the rows of the chosen join that satisfy every
    equality predicate present in the request. For every limit and offset,
    the [total_count] that /search returns is the size of that set, so it
    does not depend on them. /search does return when no filter value
    holds NUL, the store answers and limit and offset are row counts the
    store accepts. *)
Theorem total_count_distinct_matching w co cr ee od nj st :
  ∃ ids : gset string,
    ids = matching_ids (tables w) co cr ee od nj
    ∧ (∀ d, d ∈ ids ↔
            ∃ r, r ∈ rows_of (join_shape nj) (tables w)
                 ∧ ndetalle (r_s r) = d ∧ fulfils co cr ee od nj r)
    ∧ (∀ limit offset r st',
         buscar_sentencias w co cr ee od nj limit offset st = (inr r, st') →
         total_count r = VInt (Z.of_nat (size ids)))
    ∧ (∀ limit offset,
         sendable co cr ee od nj = true →
         answers w (round_trips st) 3 = true →
         row_count limit → row_count offset →
         ∃ r st',
           buscar_sentencias w co cr ee od nj limit offset st = (inr r, st')).
Proof.
  eexists. split; [done|]. split; [|split].
  - intros d. rewrite elem_of_matching_ids.
    by setoid_rewrite matches_fulfils.
  - intros limit offset r st' Hrun.
    by rewrite (buscar_sentencias_returns _ _ _ _ _ _ _ _ _ _ _ Hrun).
  - intros limit offset Hsend Hup Hl Ho. eexists _, _.
    by apply buscar_sentencias_ok.
Qed.

Lemma total_count_distinct_matching_witness :
  ∃ r st',
    buscar_sentencias Sample.world_up (Some "A") None None None None 10 0 start
    = (inr r, st')
    ∧ total_count r = VInt 2.
Proof.
  destruct (total_count_distinct_matching Sample.world_up
              (Some "A") None None None None start)
    as (ids & Hids & _ & Hcount & Hreturns).
  destruct (Hreturns 10 0) as (r & st' & Hrun).
  - reflexivity.
  - reflexivity.
  - unfold row_count. lia.
  - unfold row_count. lia.
  - exists r, st'. split; [exact Hrun|].
    rewrite (Hcount 10 0 r st' Hrun), Hids. vm_compute. reflexivity.
Defined.



(** C3. For every subset of the five filters, the store reads the count
    query and the page query with the same FROM/JOIN chain and the same
    conditions, and both are sent the same values for them (the page query
    takes limit and offset after these). So, where decision identifiers
    are unique, there is one enumeration of rows, in the one ascending
    order they have, of which every page is a window, and [total_count] is
    the number of identifiers in that enumeration. *)
Theorem count_and_page_same_shape w co cr ee od nj st :
  NoDup (ndetalle <$> sentencias_y_autos (tables w)) →
  ∃ c p (rows : list (list value)),
    parse (count_query co cr ee od nj) = Some c
    ∧ parse (select_query co cr ee od nj) = Some p
    ∧ st_from c = st_from p
    ∧ st_where c = st_where p
    ∧ (∀ limit offset,
         params_with_pagination co cr ee od nj limit offset
         = params co cr ee od nj ++ [VInt limit; VInt offset])
    ∧ NoDup (key 0 <$> rows)
    ∧ StronglySorted (λ r1 r2, value_le_rel (key 0 r1) (key 0 r2)) rows
    ∧ (∀ limit offset r st',
         buscar_sentencias w co cr ee od nj limit offset st = (inr r, st') →
         total_count r = VInt (Z.of_nat (length rows))
         ∧ items r = dict_of_rows (cells01 <$> window limit offset rows))
    ∧ (∀ limit offset,
         sendable co cr ee od nj = true →
         answers w (round_trips st) 3 = true →
         row_count limit → row_count offset →
         ∃ r st',
           buscar_sentencias w co cr ee od nj limit offset st = (inr r, st')).
Proof.
  intros Hnd.
  exists (count_statement co cr ee od nj), (page_statement co cr ee od nj),
    (all_rows (tables w) co cr ee od nj).
  rewrite parse_count_query, parse_select_query.
  do 5 (split; [done|]).
  split; [by apply all_rows_keys_NoDup|].
  split; [apply all_rows_sorted|].
  split.
  - intros limit offset r st' Hrun.
    rewrite (buscar_sentencias_returns _ _ _ _ _ _ _ _ _ _ _ Hrun).
    split; [|done]. cbn [total_count]. do 2 f_equal.
    rewrite <- all_rows_distinct_ids.
    rewrite <- (length_fmap (key 0) (all_rows (tables w) co cr ee od nj)).
    apply Permutation_length, NoDup_Permutation.
    + apply NoDup_remove_dups.
    + by apply all_rows_keys_NoDup.
    + intros x. by rewrite elem_of_remove_dups.
  - intros limit offset Hsend Hup Hl Ho. eexists _, _.
    by apply buscar_sentencias_ok.
Qed.

Lemma count_and_page_same_shape_witness :
  ∃ r st',
    buscar_sentencias Sample.world_up (Some "A") None None None (Some "Ana")
      10 0 start
    = (inr r, st')
    ∧ total_count r = VInt 1
    ∧ size (items r) = 1%nat.
Proof.
  destruct (count_and_page_same_shape Sample.world_up
              (Some "A") None None None (Some "Ana") start)
    as (c & p & rows & _ & _ & _ & _ & _ & _ & _ & _ & Hreturns).
  - apply (bool_decide_unpack _). vm_compute. exact I.
  - destruct (Hreturns 10 0) as (r & st' & Hrun).
    + reflexivity.
    + reflexivity.
    + unfold row_count. lia.
    + unfold row_count. lia.
    + exists r, st'. split; [exact Hrun|].
      rewrite (buscar_sentencias_returns _ _ _ _ _ _ _ _ _ _ _ Hrun).
      cbn [items total_count]. split; vm_compute; reflexivity.
Defined.

(** Without a judge filter the join plays no part: the matching rows are
    the decision records that satisfy the direct predicates. *)
Lemma matching_without_judge_decision db co cr ee od r :
  r ∈ matching_rows db co cr ee od None →
  r_s r ∈ sentencias_y_autos db ∧ fulfils_direct co cr ee od (r_s r).
Proof.
  intros [Hr Hm]%elem_of_matching_rows.
  split; [by apply rows_of_left_decision|].
  by apply fulfils_without_judge, matches_fulfils.
Qed.

Lemma matching_without_judge_row db co cr ee od s :
  s ∈ sentencias_y_autos db → fulfils_direct co cr ee od s →
  ∃ r, r ∈ matching_rows db co cr ee od None ∧ r_s r = s.
Proof.
  intros Hs Hf. destruct (rows_of_left_total db s Hs) as (r & Hr & <-).
  exists r. split; [|done]. apply elem_of_matching_rows. split; [done|].
  by apply matches_fulfils, fulfils_without_judge.
Qed.

(** With a judge filter every matching row carries an association and a
    judge, and the judge has the name asked for. *)
Lemma matching_with_judge db co cr ee od x r :
  r ∈ matching_rows db co cr ee od (Some x) →
  ∃ sj j, sj ∈ sentencias_jueces db ∧ j ∈ jueces db
          ∧ sj_ndetalle sj = ndetalle (r_s r) ∧ codigo j = sj_codigo sj
          ∧ asks (Some x) (nombre_juez j).
Proof.
  intros [Hr Hm]%elem_of_matching_rows.
  apply elem_of_rows_of_inner in Hr as (s & sj & j & ? & ? & ? & ? & ? & ->).
  apply matches_fulfils in Hm as (_ & _ & _ & _ & Hj).
  by exists sj, j.
Qed.

(** C4 asks for the LEFT JOIN chain whenever no judge-name filter is
    applied, as the comment above the join choice does ("si hay filtro
    sobre nombre_juez, será necesario hacer join; en caso contrario, no se
    utiliza j ni sj"). The condition is added under [if nombre_juez:] but
    the join is chosen by [nombre_juez is not None], and the two differ at
    the empty string. On the sample registry, a request with
    [nombre_juez = ""] adds no condition and binds no parameter, like the
    request without [nombre_juez]; yet it is read with the inner JOIN
    chain and counts one decision, where the request without
    [nombre_juez] is read with the LEFT JOIN chain and counts the three:
    decisions "001" and "003", which no judge is joined to, are left out
    of the count and of the page. *)
Theorem empty_judge_filter_takes_inner_join :
  filtros_where None None None None (Some "")
  = filtros_where None None None None None
  ∧ params None None None None (Some "") = []
  ∧ (∃ c c0,
       parse (count_query None None None None (Some "")) = Some c
       ∧ parse (count_query None None None None None) = Some c0
       ∧ st_where c = [] ∧ st_where c0 = []
       ∧ st_from c = SInner ∧ st_from c0 = SLeft)
  ∧ (∃ r r0 st' st0',
       buscar_sentencias Sample.world_up None None None None (Some "") 10 0
         start = (inr r, st')
       ∧ buscar_sentencias Sample.world_up None None None None None 10 0
           start = (inr r0, st0')
       ∧ total_count r = VInt 1 ∧ total_count r0 = VInt 3
       ∧ items r !! VStr "001" = None ∧ items r !! VStr "003" = None
       ∧ items r0 !! VStr "001" = Some VNone
       ∧ items r0 !! VStr "003" = Some (VStr "p/3.pdf")).
Proof.
  split; [done|]. split; [done|]. split.
  - exists (count_statement None None None None (Some "")),
      (count_statement None None None None None).
    by rewrite !parse_count_query.
  - rewrite !(buscar_sentencias_ok Sample.world_up);
      [|reflexivity|reflexivity|unfold row_count; lia|unfold row_count; lia
       |reflexivity|reflexivity|unfold row_count; lia|unfold row_count; lia].
    eexists _, _, _, _. do 2 (split; [reflexivity|]).
    cbn [total_count items]. repeat split; by vm_compute.
Qed.

Lemma matches_nothing_no_rows db co cr ee od nj :
  matches_nothing db co cr ee od nj → matching_rows db co cr ee od nj = [].
Proof.
  intros Hnone. apply elem_of_nil_inv. intros r [Hr Hm]%elem_of_matching_rows.
  apply matches_fulfils in Hm as (Hco & Hcr & Hee & Hod & Hnj).
  pose proof (rows_of_decision _ _ _ Hr) as Hs.
  destruct Hnone as [(v & Hv & -> & Hno)|[(v & Hv & -> & Hno)|
    [(v & Hv & -> & Hno)|[(v & Hv & -> & Hno)|(v & Hv & -> & Hno)]]]].
  - by apply (Hno _ Hs), Hco.
  - by apply (Hno _ Hs), Hcr.
  - by apply (Hno _ Hs), Hee.
  - by apply (Hno _ Hs), Hod.
  - cbn in Hr.
    apply elem_of_rows_of_inner in Hr
      as (s0 & sj0 & j0 & _ & _ & Hj & _ & _ & ->).
    by apply (Hno _ Hj), Hnj.
Qed.

(** C5, as the code has it. The handler validates no filter value. For
    filter values without NUL, /search returns a response when the store
    answers and limit and offset are valid row counts; and when some
    filter carries a non-empty value that no stored record has (a judge
    name that no judge bears, a code that no decision has), the response
    is [total_count = 0] with an empty [items] mapping. A filter value
    that holds NUL is refused by the driver: [cur.execute] raises
    [ValueError]. *)
Theorem unmatched_filter_gives_empty_result w co cr ee od nj limit offset st :
  answers w (round_trips st) 3 = true →
  row_count limit → row_count offset →
  (sendable co cr ee od nj = true →
   (∃ r st',
      buscar_sentencias w co cr ee od nj limit offset st = (inr r, st'))
   ∧ (matches_nothing (tables w) co cr ee od nj →
      ∃ st', buscar_sentencias w co cr ee od nj limit offset st
             = (inr {| total_count := VInt 0; items := ∅ |}, st')))
  ∧ (sendable co cr ee od nj = false →
     ∃ st', buscar_sentencias w co cr ee od nj limit offset st
            = (inl ValueError, st')).
Proof.
  intros Hup Hl Ho. split.
  - intros Hsend. rewrite buscar_sentencias_ok by done. split.
    + by eexists _, _.
    + intros Hnone. eexists.
      unfold matching_ids, all_rows.
      rewrite (matches_nothing_no_rows _ _ _ _ _ _ Hnone).
      unfold window. cbn. by rewrite drop_nil, take_nil.
  - intros Hsend. apply answers_three in Hup as (A0 & _).
    rewrite buscar_sentencias_unsendable by done. by eexists.
Qed.

Lemma unmatched_filter_gives_empty_result_witness :
  (sendable None None None None (Some "Nadie") = true →
   (∃ r st', buscar_sentencias Sample.world_up None None None None
               (Some "Nadie") 10 0 start = (inr r, st'))
   ∧ (matches_nothing (tables Sample.world_up) None None None None
        (Some "Nadie") →
      ∃ st', buscar_sentencias Sample.world_up None None None None
               (Some "Nadie") 10 0 start
             = (inr {| total_count := VInt 0; items := ∅ |}, st')))
  ∧ (sendable None None None None (Some "Nadie") = false →
     ∃ st', buscar_sentencias Sample.world_up None None None None
              (Some "Nadie") 10 0 start
            = (inl ValueError, st')).
Proof.
  apply (unmatched_filter_gives_empty_result Sample.world_up
           None None None None (Some "Nadie") 10 0 start).
  - reflexivity.
  - unfold row_count. lia.
  - unfold row_count. lia.
Defined.

(** C5 as stated fails at two values. The empty string: no decision of
    the sample registry has [codigo_organo = ""], yet a search with that
    filter value counts all three decisions and returns them. A string
    that holds NUL: the search raises [ValueError]. *)
Lemma empty_filter_value_matches_everything :
  ((∀ s, s ∈ sentencias_y_autos Sample.registry → codigo_organo s ≠ Some "")
   ∧ ∃ r st',
       buscar_sentencias Sample.world_up (Some "") None None None None 10 0
         start
       = (inr r, st')
       ∧ total_count r = VInt 3
       ∧ items r !! VStr "001" = Some VNone
       ∧ items r ≠ ∅)
  ∧ ∃ st',
      buscar_sentencias Sample.world_up (Some Sample.with_nul) None None None
        None 10 0 start
      = (inl ValueError, st').
Proof.
  split; [split|].
  - intros s Hs. cbn in Hs.
    repeat (apply elem_of_cons in Hs as [->|Hs]; [done|]).
    by apply not_elem_of_nil in Hs.
  - rewrite (buscar_sentencias_ok Sample.world_up);
      [|reflexivity|reflexivity|unfold row_count; lia|unfold row_count; lia].
    eexists _, _. split; [reflexivity|]. cbn [total_count items].
    split; [by vm_compute|].
    assert (dict_of_rows
              (cells01 <$> window 10 0
                 (all_rows (tables Sample.world_up) (Some "") None None None
                    None)) !! VStr "001" = Some VNone) as Hlook
      by (by vm_compute).
    split; [exact Hlook|].
    intros Hempty. rewrite Hempty in Hlook. by rewrite lookup_empty in Hlook.
  - rewrite (buscar_sentencias_unsendable Sample.world_up);
      [by eexists|reflexivity|reflexivity].
Qed.



Lemma matching_ids_have_judge db co cr ee od x d :
  d ∈ matching_ids db co cr ee od (Some x) → has_judge db d.
Proof.
  unfold matching_ids. rewrite elem_of_list_to_set, list_elem_of_fmap.
  intros (r & -> & Hr).
  destruct (matching_with_judge _ _ _ _ _ _ _ Hr)
    as (sj & j & ? & ? & ? & ? & _).
  by exists sj, j.
Qed.

Lemma page_keys_have_judge db co cr ee od x limit offset d :
  ¬ has_judge db d →
  dict_of_rows
    (cells01 <$> window limit offset (all_rows db co cr ee od (Some x)))
  !! VStr d = None.
Proof.
  intros Hno. apply dict_of_rows_absent. intros Hin.
  apply list_elem_of_fmap in Hin as ([k v] & Hk & Hin). simpl in Hk. subst k.
  apply list_elem_of_fmap in Hin as (row & Hrow & Hin).
  apply (λ H, elem_of_sublist _ _ _ H (window_sublist _ _ _)) in Hin.
  apply elem_of_all_rows in Hin as (r & Hr & ->).
  injection Hrow as Hd _. apply Hno. rewrite Hd.
  destruct (matching_with_judge _ _ _ _ _ _ _ Hr)
    as (sj & j & ? & ? & ? & ? & _).
  by exists sj, j.
Qed.

(** C10. A filter given as the empty string adds no condition and binds
    no parameter: the WHERE clause is the one of the request without that
    filter. The join is chosen by [nombre_juez is not None], so a request
    with [nombre_juez = ""] runs on the inner JOIN chain with the
    conditions of the request without judge filter, and no decision
    without a judge association is counted or returned. (The request is
    run with other filter values that hold no NUL, on a store that
    answers, with valid row counts.) *)
Theorem empty_string_filter w co cr ee od nj limit offset st :
  answers w (round_trips st) 3 = true →
  sendable co cr ee od (Some "") = true →
  row_count limit → row_count offset →
  (filtros_where (Some "") cr ee od nj = filtros_where None cr ee od nj
   ∧ params (Some "") cr ee od nj = params None cr ee od nj)
  ∧ (filtros_where co (Some "") ee od nj = filtros_where co None ee od nj
     ∧ params co (Some "") ee od nj = params co None ee od nj)
  ∧ (filtros_where co cr (Some "") od nj = filtros_where co cr None od nj
     ∧ params co cr (Some "") od nj = params co cr None od nj)
  ∧ (filtros_where co cr ee (Some "") nj = filtros_where co cr ee None nj
     ∧ params co cr ee (Some "") nj = params co cr ee None nj)
  ∧ (filtros_where co cr ee od (Some "") = filtros_where co cr ee od None
     ∧ params co cr ee od (Some "") = params co cr ee od None)
  ∧ necesita_join_jueces (Some "") = true
  ∧ ∃ c c0 (ids : gset string) its st',
      parse (count_query co cr ee od (Some "")) = Some c
      ∧ parse (count_query co cr ee od None) = Some c0
      ∧ st_from c = SInner ∧ st_from c0 = SLeft
      ∧ st_where c = st_where c0
      ∧ buscar_sentencias w co cr ee od (Some "") limit offset st
        = (inr {| total_count := VInt (Z.of_nat (size ids)); items := its |},
           st')
      ∧ ∀ d, ¬ has_judge (tables w) d → (d ∉ ids) ∧ its !! VStr d = None.
Proof.
  intros Hup Hsend Hl Ho.
  do 6 (split; [done|]).
  exists (count_statement co cr ee od (Some "")),
    (count_statement co cr ee od None).
  eexists _, _, _.
  rewrite !parse_count_query.
  do 5 (split; [done|]).
  split; [by apply buscar_sentencias_ok|].
  intros d Hno. split.
  - intros Hin. by apply Hno, (matching_ids_have_judge _ co cr ee od "").
  - by apply page_keys_have_judge.
Qed.

Lemma empty_string_filter_witness :
  (filtros_where (Some "") None None None (Some "")
   = filtros_where None None None None (Some "")
   ∧ params (Some "") None None None (Some "")
     = params None None None None (Some ""))
  ∧ (filtros_where (Some "A") (Some "") None None (Some "")
     = filtros_where (Some "A") None None None (Some "")
     ∧ params (Some "A") (Some "") None None (Some "")
       = params (Some "A") None None None (Some ""))
  ∧ (filtros_where (Some "A") None (Some "") None (Some "")
     = filtros_where (Some "A") None None None (Some "")
     ∧ params (Some "A") None (Some "") None (Some "")
       = params (Some "A") None None None (Some ""))
  ∧ (filtros_where (Some "A") None None (Some "") (Some "")
     = filtros_where (Some "A") None None None (Some "")
     ∧ params (Some "A") None None (Some "") (Some "")
       = params (Some "A") None None None (Some ""))
  ∧ (filtros_where (Some "A") None None None (Some "")
     = filtros_where (Some "A") None None None None
     ∧ params (Some "A") None None None (Some "")
       = params (Some "A") None None None None)
  ∧ necesita_join_jueces (Some "") = true
  ∧ ∃ c c0 (ids : gset string) its st',
      parse (count_query (Some "A") None None None (Some "")) = Some c
      ∧ parse (count_query (Some "A") None None None None) = Some c0
      ∧ st_from c = SInner ∧ st_from c0 = SLeft
      ∧ st_where c = st_where c0
      ∧ buscar_sentencias Sample.world_up (Some "A") None None None (Some "")
          10 0 start
        = (inr {| total_count := VInt (Z.of_nat (size ids)); items := its |},
           st')
      ∧ ∀ d, ¬ has_judge (tables Sample.world_up) d →
             (d ∉ ids) ∧ its !! VStr d = None.
Proof.
  apply (empty_string_filter Sample.world_up
           (Some "A") None None None (Some "") 10 0 start).
  - reflexivity.
  - reflexivity.
  - unfold row_count. lia.
  - unfold row_count. lia.
Defined.

End Search.

(** ** /descargar and /filters *)

Module Catalogue.
Import Py Schema Sql Runtime App Request OrderFacts StoreFacts PageFacts.

Lemma parse_select_url :
  parse "SELECT url FROM sentencias_y_autos WHERE ndetalle = %s"
  = Some select_url.
Proof. vm_compute. reflexivity. Qed.

Lemma filter_fmap_iff {A B} (f : A → B)
    (P : B → Prop) `{∀ y, Decision (P y)}
    (Q : A → Prop) `{∀ x, Decision (Q x)} (l : list A) :
  (∀ x, P (f x) ↔ Q x) → filter P (f <$> l) = f <$> filter Q l.
Proof.
  intros Hiff. induction l as [|x l IH]; [done|].
  csimpl. rewrite !filter_cons.
  destruct (decide (P (f x))) as [HP|HP], (decide (Q x)) as [HQ|HQ].
  - csimpl. by rewrite IH.
  - by apply Hiff in HP.
  - by apply Hiff in HQ.
  - done.
Qed.

Lemma run_select_url db d :
  run "SELECT url FROM sentencias_y_autos WHERE ndetalle = %s" [VStr d] db
  = inr ((λ s, [of_option (url s)]) <$> records db d).
Proof.
  unfold run. rewrite parse_select_url. unfold eval, records.
  replace (well_scoped select_url) with true by done.
  cbn [select_url st_from st_proj st_where st_order_by st_paginated bind
         order project paginate mbind option_bind col mret option_ret].
  unfold selected. cbn [rows_of].
  rewrite (filter_fmap_iff _ _ (λ s, ndetalle s = d)).
  - by rewrite <- list_fmap_compose.
  - intros s. unfold satisfies. cbn.
    rewrite andb_true_r, (bool_decide_eq_false_2 (VStr d = VNone)) by done.
    cbn [negb andb]. rewrite bool_decide_spec.
    split; [by intros [=]|by intros ->].
Qed.

Local Opaque run.

(** /descargar, whatever the identifier, the store and the signer do. An
    identifier that holds NUL is refused when it is bound, before the
    statement is sent. The connection is closed before the row is looked
    at. *)
Lemma generar_url_run w d st :
  generar_url w d st =
  let n := round_trips st in
  let closed := Build_state (2 + n) (S (acquired st)) (S (released st)) [] in
  if available w n then
    if has_nul d then
      (inl ValueError,
       Build_state (1 + n) (S (acquired st)) (released st) [])
    else if available w (S n) then
      match records (tables w) d with
      | [] => (inl not_found, closed)
      | s :: _ =>
          match url s with
          | None => (inl not_found, closed)
          | Some blob_name =>
              match generate_signed_url w bucket blob_name "v4"
                      (timedelta_minutes 15) "GET" with
              | Some signed_url => (inr {| resp_url := signed_url |}, closed)
              | None => (inl SigningError, closed)
              end
          end
      end
    else
      (inl OperationalError,
       Build_state (2 + n) (S (acquired st)) (released st) [])
  else
    (inl OperationalError,
     Build_state (1 + n) (acquired st) (released st) (cursor_rows st)).
Proof.
  unfold generar_url, mbind, M_bind, get_db_connection. cbn zeta.
  destruct (available w (round_trips st)) eqn:A0; [|done].
  unfold cursor, execute. cbn [round_trips tables forallb adaptable].
  destruct (has_nul d) eqn:Hd; [done|]. cbn [negb andb].
  destruct (available w (S (round_trips st))) eqn:A1; [|done].
  rewrite run_select_url.
  destruct (records (tables w) d) as [|s l]; [done|].
  csimpl. unfold fetchone. cbn [cursor_rows].
  destruct (url s) as [blob_name|]; [|done].
  cbn. unfold lift.
  by destruct (generate_signed_url w bucket blob_name "v4"
                 (timedelta_minutes 15) "GET").
Qed.

Lemma answers_two w n :
  answers w n 2 = true → available w n = true ∧ available w (S n) = true.
Proof. simpl. rewrite !andb_true_iff. tauto. Qed.

(** With unique identifiers, the records of an identifier are the one
    record that has it. *)
Lemma records_unique db s :
  NoDup (ndetalle <$> sentencias_y_autos db) →
  s ∈ sentencias_y_autos db →
  records db (ndetalle s) = [s].
Proof.
  unfold records. induction (sentencias_y_autos db) as [|x l IH]; intros Hnd Hs.
  { by apply not_elem_of_nil in Hs. }
  csimpl in Hnd. apply NoDup_cons in Hnd as [Hx Hnd].
  apply elem_of_cons in Hs as [->|Hs].
  - rewrite filter_cons_True by done. f_equal.
    apply elem_of_nil_inv. intros y [Hy Hin]%list_elem_of_filter.
    apply Hx. rewrite <- Hy. by apply list_elem_of_fmap_2.
  - rewrite filter_cons_False; [by apply IH|].
    intros Heq. apply Hx. rewrite Heq. by apply list_elem_of_fmap_2.
Qed.

(** C6. When the store answers and identifiers are unique, for an
    identifier that holds no NUL /descargar raises the 404 exception
    exactly when no decision record has the identifier or the record that
    has it carries no storage path; otherwise the response holds one
    field, the URL the bucket signs for the record's path with version
    "v4", method "GET" and an expiration of 15 minutes (900 seconds). For
    an identifier that holds NUL no record has the identifier, and the
    handler raises ValueError, not the 404 exception. *)
Theorem generar_url_not_found_or_signed w d st :
  answers w (round_trips st) 2 = true →
  NoDup (ndetalle <$> sentencias_y_autos (tables w)) →
  (has_nul d = false →
   ((generar_url w d st).1 = inl (HTTPException 404 "Archivo no encontrado")
    ↔ (∀ s, s ∈ sentencias_y_autos (tables w) → ndetalle s ≠ d)
      ∨ (∃ s, s ∈ sentencias_y_autos (tables w) ∧ ndetalle s = d
              ∧ url s = None))
   ∧ (∀ s blob_name,
        s ∈ sentencias_y_autos (tables w) → ndetalle s = d →
        url s = Some blob_name →
        (generar_url w d st).1
        = match generate_signed_url w "automatizacion-casillero" blob_name
                  "v4" 900 "GET" with
          | Some signed_url => inr {| resp_url := signed_url |}
          | None => inl SigningError
          end))
  ∧ (has_nul d = true →
     (∀ s, s ∈ sentencias_y_autos (tables w) → ndetalle s ≠ d)
     ∧ (generar_url w d st).1 = inl ValueError).
Proof.
  intros [A0 A1]%answers_two Hnd.
  rewrite generar_url_run. cbn zeta. rewrite A0, A1.
  split; [intros ->|intros Hd].
  2: { rewrite Hd. split; [|done]. intros s Hs <-.
       apply stored_ndetalle in Hs. congruence. }
  split; [split|].
  - destruct (records (tables w) d) as [|s l] eqn:Hrec.
    + intros _. left. intros s Hs Heq.
      assert (s ∈ records (tables w) d) as Hin
        by (by apply list_elem_of_filter).
      rewrite Hrec in Hin. by apply not_elem_of_nil in Hin.
    + assert (s ∈ records (tables w) d) as [Heq Hs]%list_elem_of_filter
        by (rewrite Hrec; left).
      destruct (url s) as [blob_name|] eqn:Hurl.
      * by destruct (generate_signed_url w bucket blob_name "v4"
                       (timedelta_minutes 15) "GET").
      * intros _. right. by exists s.
  - intros [Hno|(s & Hs & <- & Hurl)].
    + destruct (records (tables w) d) as [|s l] eqn:Hrec; [done|].
      assert (s ∈ records (tables w) d) as [Heq Hs]%list_elem_of_filter
        by (rewrite Hrec; left).
      by destruct (Hno s Hs).
    + rewrite records_unique by done. by rewrite Hurl.
  - intros s blob_name Hs <- Hurl.
    rewrite records_unique by done. rewrite Hurl.
    change (timedelta_minutes 15) with 900. unfold bucket.
    by destruct (generate_signed_url w "automatizacion-casillero" blob_name
                   "v4" 900 "GET").
Qed.

Lemma generar_url_not_found_or_signed_witness :
  (has_nul "002" = false →
   ((generar_url Sample.world_up "002" start).1
      = inl (HTTPException 404 "Archivo no encontrado")
    ↔ (∀ s, s ∈ sentencias_y_autos (tables Sample.world_up) →
            ndetalle s ≠ "002")
      ∨ (∃ s, s ∈ sentencias_y_autos (tables Sample.world_up)
              ∧ ndetalle s = "002" ∧ url s = None))
   ∧ (∀ s blob_name,
        s ∈ sentencias_y_autos (tables Sample.world_up) →
        ndetalle s = "002" →
        url s = Some blob_name →
        (generar_url Sample.world_up "002" start).1
        = match generate_signed_url Sample.world_up
                  "automatizacion-casillero" blob_name "v4" 900 "GET" with
          | Some signed_url => inr {| resp_url := signed_url |}
          | None => inl SigningError
          end))
  ∧ (has_nul "002" = true →
     (∀ s, s ∈ sentencias_y_autos (tables Sample.world_up) →
           ndetalle s ≠ "002")
     ∧ (generar_url Sample.world_up "002" start).1 = inl ValueError).
Proof.
  apply (generar_url_not_found_or_signed Sample.world_up "002" start).
  - reflexivity.
  - apply (bool_decide_unpack _). vm_compute. exact I.
Defined.

(** C6, where it fails. No record of the sample registry has the
    identifier made of NUL and "x", and the store answers; /descargar
    raises ValueError, not the 404 exception, and the connection it
    opened is not closed. *)
Lemma nul_identifier_is_not_a_404 :
  (∀ s, s ∈ sentencias_y_autos (tables Sample.world_up) →
        ndetalle s ≠ Sample.with_nul)
  ∧ answers Sample.world_up 0 2 = true
  ∧ NoDup (ndetalle <$> sentencias_y_autos (tables Sample.world_up))
  ∧ (generar_url Sample.world_up Sample.with_nul start).1 = inl ValueError
  ∧ (generar_url Sample.world_up Sample.with_nul start).1
    ≠ inl (HTTPException 404 "Archivo no encontrado")
  ∧ acquired (generar_url Sample.world_up Sample.with_nul start).2 = 1%nat
  ∧ released (generar_url Sample.world_up Sample.with_nul start).2 = 0%nat.
Proof.
  split; [|split; [|split; [|split; [|split; [|split]]]]].
  - intros s Hs Heq. apply stored_ndetalle in Hs. by rewrite Heq in Hs.
  - reflexivity.
  - apply (bool_decide_unpack _). vm_compute. exact I.
  - vm_compute. reflexivity.
  - vm_compute. discriminate.
  - vm_compute. reflexivity.
  - vm_compute. reflexivity.
Qed.

Local Transparent run.

(** *** The five queries of /filters *)

Lemma parse_distinct_codigo_organo :
  parse "SELECT DISTINCT codigo_organo FROM sentencias_y_autos WHERE codigo_organo IS NOT NULL;"
  = Some (select_distinct SPlain (Build_colref false Col_codigo_organo)).
Proof. vm_compute. reflexivity. Qed.

Lemma parse_distinct_codigo_recurso :
  parse "SELECT DISTINCT codigo_recurso FROM sentencias_y_autos WHERE codigo_recurso IS NOT NULL;"
  = Some (select_distinct SPlain (Build_colref false Col_codigo_recurso)).
Proof. vm_compute. reflexivity. Qed.

Lemma parse_distinct_especialidad_expe :
  parse "SELECT DISTINCT especialidad_expe FROM sentencias_y_autos WHERE especialidad_expe IS NOT NULL;"
  = Some (select_distinct SPlain (Build_colref false Col_especialidad_expe)).
Proof. vm_compute. reflexivity. Qed.

Lemma parse_distinct_organo_detalle :
  parse "SELECT DISTINCT organo_detalle FROM sentencias_y_autos WHERE organo_detalle IS NOT NULL;"
  = Some (select_distinct SPlain (Build_colref false Col_organo_detalle)).
Proof. vm_compute. reflexivity. Qed.

Lemma parse_distinct_nombre_juez :
  parse (nl +:+ "        SELECT DISTINCT j.nombre_juez" +:+
         nl +:+ "        FROM jueces j" +:+
         nl +:+ "        JOIN sentencias_jueces sj ON sj.codigo = j.codigo" +:+
         nl +:+ "        JOIN sentencias_y_autos s ON s.ndetalle = sj.ndetalle" +:+
         nl +:+ "        WHERE j.nombre_juez IS NOT NULL;" +:+
         nl +:+ "    ")
  = Some (select_distinct SJueces (Build_colref true Col_nombre_juez)).
Proof. vm_compute. reflexivity. Qed.

#[global] Instance singleton_row_inj : Inj (=) (=) (λ v : string, [VStr v]).
Proof. by intros ?? [=]. Qed.

Lemma eval_select_distinct src c (g : joined → option string) db :
  in_scope src c = true →
  (∀ r, cell (col c) r = of_option (g r)) →
  eval (select_distinct src c) [] db
  = inr (distinct_rows (g <$> rows_of src db)).
Proof.
  intros Hscope Hcell. unfold eval, well_scoped.
  cbn [select_distinct st_from st_proj st_where st_order_by st_paginated
         proj_refs fmap list_fmap cond_ref option_list app forallb].
  rewrite Hscope. cbn [andb bind mbind option_bind mret option_ret order
                         project paginate].
  unfold distinct_rows.
  rewrite <- (remove_dups_fmap_inj (λ v : string, [VStr v])).
  do 2 f_equal. unfold selected.
  induction (rows_of src db) as [|r l IH]; [done|].
  rewrite filter_cons.
  assert (satisfies [BNotNull (col c)] r = bool_decide (is_Some (g r))) as Hs.
  { unfold satisfies. cbn [forallb holds]. rewrite Hcell, andb_true_r.
    destruct (g r); cbn [of_option].
    - rewrite bool_decide_eq_false_2 by done.
      by rewrite bool_decide_eq_true_2.
    - rewrite bool_decide_eq_true_2 by done.
      rewrite bool_decide_eq_false_2; [done|]. by intros [? ?]. }
  rewrite Hs. destruct (g r) as [v|] eqn:Hg.
  - rewrite decide_True by (by apply bool_decide_pack).
    csimpl. rewrite Hg, Hcell, Hg. csimpl. f_equal. apply IH.
  - rewrite decide_False by (rewrite bool_decide_spec; by intros [? ?]).
    csimpl. rewrite Hg. apply IH.
Qed.

Lemma run_distinct_plain text c (f : sentencia → option string) db :
  parse text = Some (select_distinct SPlain (Build_colref false c)) →
  c ≠ Col_nombre_juez →
  (∀ r, cell c r = of_option (f (r_s r))) →
  run text [] db = inr (distinct_rows (f <$> sentencias_y_autos db)).
Proof.
  intros Hparse Hc Hcell. unfold run. rewrite Hparse.
  rewrite (eval_select_distinct _ _ (λ r, f (r_s r))).
  - cbn [rows_of]. by rewrite <- list_fmap_compose.
  - unfold in_scope. cbn.
    rewrite (bool_decide_eq_false_2 (c = Col_nombre_juez)) by done.
    by rewrite bool_decide_eq_true_2.
  - done.
Qed.

Lemma run_distinct_nombre_juez db :
  run (nl +:+ "        SELECT DISTINCT j.nombre_juez" +:+
       nl +:+ "        FROM jueces j" +:+
       nl +:+ "        JOIN sentencias_jueces sj ON sj.codigo = j.codigo" +:+
       nl +:+ "        JOIN sentencias_y_autos s ON s.ndetalle = sj.ndetalle" +:+
       nl +:+ "        WHERE j.nombre_juez IS NOT NULL;" +:+
       nl +:+ "    ") [] db
  = inr (distinct_rows (linked_judge_names db)).
Proof.
  unfold run. rewrite parse_distinct_nombre_juez.
  by rewrite (eval_select_distinct _ _ (λ r, r_j r ≫= nombre_juez)).
Qed.

Lemma column0_distinct_rows vals st :
  column0 (distinct_rows vals) st
  = (inr (VStr <$> remove_dups (omap id vals)), st).
Proof.
  unfold column0, distinct_rows.
  rewrite (list_fmap_compose VStr (λ v : value, [v])).
  by rewrite mapM_fmap_Some.
Qed.

Lemma py_sorted_strings (l : list string) st :
  py_sorted (VStr <$> l) st = (inr (sort_values (VStr <$> l)), st).
Proof.
  unfold py_sorted, sorted, sort_values.
  destruct (bool_decide (length (VStr <$> l) ≤ 1)%nat); [done|].
  assert (forallb is_str (VStr <$> l) = true) as ->; [|done].
  induction l as [|x l IH]; [done|]. csimpl. apply IH.
Qed.

Lemma execute_step w text st rows :
  run text [] (tables w) = inr rows →
  execute w text [] st
  = if available w (round_trips st)
    then (inr (),
          Build_state (S (round_trips st)) (acquired st) (released st) rows)
    else (inl OperationalError, tick st).
Proof. intros Hrun. unfold execute. cbn [forallb]. by rewrite Hrun. Qed.

Local Opaque run.

(** /filters, whatever the store does. *)
Lemma obtener_filtros_run w st :
  obtener_filtros w st =
  let n := round_trips st in
  let db := tables w in
  let failed k :=
    (inl OperationalError,
     Build_state (k + n) (S (acquired st)) (released st) []) in
  if available w n then
    if available w (1 + n) then
      if available w (2 + n) then
        if available w (3 + n) then
          if available w (4 + n) then
            if available w (5 + n) then
              (inr {| resp_codigo_organo :=
                        catalogue (codigo_organo <$> sentencias_y_autos db);
                      resp_codigo_recurso :=
                        catalogue (codigo_recurso <$> sentencias_y_autos db);
                      resp_especialidad_expe :=
                        catalogue (especialidad_expe <$> sentencias_y_autos db);
                      resp_organo_detalle :=
                        catalogue (organo_detalle <$> sentencias_y_autos db);
                      resp_nombre_juez := catalogue (linked_judge_names db) |},
               Build_state (6 + n) (S (acquired st)) (S (released st)) [])
            else failed 6%nat
          else failed 5%nat
        else failed 4%nat
      else failed 3%nat
    else failed 2%nat
  else
    (inl OperationalError,
     Build_state (1 + n) (acquired st) (released st) (cursor_rows st)).
Proof.
  unfold obtener_filtros, mbind, M_bind, get_db_connection.
  cbn zeta. cbn [Nat.add].
  destruct (available w (round_trips st)) eqn:A0; [|done].
  unfold cursor.
  rewrite (execute_step _ _ _ _
             (run_distinct_plain _ Col_codigo_organo codigo_organo _
                parse_distinct_codigo_organo ltac:(done) ltac:(done))).
  cbn [round_trips acquired released cursor_rows].
  destruct (available w (S (round_trips st))) eqn:A1; [|done].
  unfold fetchall at 1. cbn [round_trips acquired released cursor_rows].
  rewrite column0_distinct_rows.
  rewrite (execute_step _ _ _ _
             (run_distinct_plain _ Col_codigo_recurso codigo_recurso _
                parse_distinct_codigo_recurso ltac:(done) ltac:(done))).
  cbn [round_trips acquired released cursor_rows].
  destruct (available w (S (S (round_trips st)))) eqn:A2; [|done].
  unfold fetchall at 1. cbn [round_trips acquired released cursor_rows].
  rewrite column0_distinct_rows.
  rewrite (execute_step _ _ _ _
             (run_distinct_plain _ Col_especialidad_expe especialidad_expe _
                parse_distinct_especialidad_expe ltac:(done) ltac:(done))).
  cbn [round_trips acquired released cursor_rows].
  destruct (available w (S (S (S (round_trips st))))) eqn:A3; [|done].
  unfold fetchall at 1. cbn [round_trips acquired released cursor_rows].
  rewrite column0_distinct_rows.
  rewrite (execute_step _ _ _ _
             (run_distinct_plain _ Col_organo_detalle organo_detalle _
                parse_distinct_organo_detalle ltac:(done) ltac:(done))).
  cbn [round_trips acquired released cursor_rows].
  destruct (available w (S (S (S (S (round_trips st)))))) eqn:A4; [|done].
  unfold fetchall at 1. cbn [round_trips acquired released cursor_rows].
  rewrite column0_distinct_rows.
  rewrite (execute_step _ _ _ _ (run_distinct_nombre_juez _)).
  cbn [round_trips acquired released cursor_rows].
  destruct (available w (S (S (S (S (S (round_trips st))))))) eqn:A5; [|done].
  unfold fetchall. cbn [round_trips acquired released cursor_rows].
  rewrite column0_distinct_rows.
  unfold cur_close, conn_close. cbn [round_trips acquired released cursor_rows].
  by rewrite !py_sorted_strings.
Qed.

(** *** The lists of the catalogue *)

Lemma sort_values_Permutation l : sort_values l ≡ₚ l.
Proof.
  unfold sort_values. case_bool_decide; [done|apply merge_sort_Permutation].
Qed.

Lemma sort_values_sorted l : StronglySorted value_le_rel (sort_values l).
Proof.
  unfold sort_values. case_bool_decide as Hlen.
  - destruct l as [|x [|y l]]; simpl in Hlen; [constructor| |lia].
    constructor; [constructor|done].
  - apply StronglySorted_merge_sort; apply _.
Qed.

Lemma strongly_sorted_strict l :
  StronglySorted value_le_rel l → NoDup l → StronglySorted strictly_below l.
Proof.
  induction 1 as [|x l Hsorted IH Hall]; intros Hnd; [constructor|].
  apply NoDup_cons in Hnd as [Hx Hnd].
  constructor; [by apply IH|].
  apply Forall_forall. intros y Hy. split.
  - by apply (proj1 (Forall_forall _ _) Hall).
  - by intros ->.
Qed.

Lemma catalogue_lists_exactly vals :
  lists_exactly (λ v, Some v ∈ vals) (catalogue vals).
Proof.
  unfold lists_exactly, catalogue. split.
  - apply strongly_sorted_strict; [apply sort_values_sorted|].
    rewrite sort_values_Permutation.
    apply (NoDup_fmap_2 VStr), NoDup_remove_dups.
  - intros v. rewrite sort_values_Permutation, list_elem_of_fmap.
    setoid_rewrite elem_of_remove_dups.
    setoid_rewrite list_elem_of_omap. split.
    + intros (s & -> & (o & Ho & Heq)). simpl in Heq. subst o. by exists s.
    + intros (s & -> & Hs). exists s. split; [done|]. by exists (Some s).
Qed.

Lemma lists_exactly_iff (P Q : string → Prop) l :
  (∀ v, P v ↔ Q v) → lists_exactly P l → lists_exactly Q l.
Proof.
  intros Hiff [Hsorted Hin]. split; [done|].
  intros v. rewrite Hin. by setoid_rewrite Hiff.
Qed.

Lemma elem_of_rows_of_jueces db r :
  r ∈ rows_of SJueces db ↔
  ∃ j sj s, j ∈ jueces db ∧ sj ∈ sentencias_jueces db
    ∧ s ∈ sentencias_y_autos db ∧ sj_codigo sj = codigo j
    ∧ ndetalle s = sj_ndetalle sj
    ∧ r = Build_joined s (Some sj) (Some j).
Proof.
  unfold rows_of. split.
  - intros Hr.
    apply list_elem_of_bind in Hr as (j & Hr & Hj).
    apply list_elem_of_bind in Hr as (sj & Hr & Hsj).
    apply list_elem_of_bind in Hr as (s & Hr & Hs).
    apply list_elem_of_singleton in Hr.
    apply list_elem_of_filter in Hsj as [? ?].
    apply list_elem_of_filter in Hs as [? ?].
    by exists j, sj, s.
  - intros (j & sj & s & Hj & Hsj & Hs & E1 & E2 & ->).
    apply list_elem_of_bind. exists j. split; [|done].
    apply list_elem_of_bind. exists sj. split;
      [|by apply list_elem_of_filter].
    apply list_elem_of_bind. exists s. split;
      [|by apply list_elem_of_filter].
    by apply list_elem_of_singleton.
Qed.

Lemma elem_of_linked_judge_names db v :
  Some v ∈ linked_judge_names db ↔
  ∃ j sj s, j ∈ jueces db ∧ sj ∈ sentencias_jueces db
    ∧ s ∈ sentencias_y_autos db ∧ sj_codigo sj = codigo j
    ∧ ndetalle s = sj_ndetalle sj ∧ nombre_juez j = Some v.
Proof.
  unfold linked_judge_names. rewrite list_elem_of_fmap. split.
  - intros (r & Hv & Hr).
    apply elem_of_rows_of_jueces in Hr as (j & sj & s & ? & ? & ? & ? & ? & ->).
    by exists j, sj, s.
  - intros (j & sj & s & ? & ? & ? & ? & ? & Hv).
    exists (Build_joined s (Some sj) (Some j)). split; [done|].
    apply elem_of_rows_of_jueces. by exists j, sj, s.
Qed.

Lemma answers_six w n :
  answers w n 6 = true →
  available w n = true ∧ available w (1 + n) = true
  ∧ available w (2 + n) = true ∧ available w (3 + n) = true
  ∧ available w (4 + n) = true ∧ available w (5 + n) = true.
Proof. simpl. rewrite !andb_true_iff. tauto. Qed.

(** C7. When the store answers, /filters returns five lists. Each of the
    four lists of a direct attribute holds exactly the non-null values the
    attribute takes on the decision records, and the list of judge names
    holds exactly the non-null names of the judges joined through an
    association to a decision record. Each list is strictly ascending, so
    it has no duplicate, and holds strings only, so it has no null. *)
Theorem obtener_filtros_distinct_sorted w st :
  answers w (round_trips st) 6 = true →
  ∃ r st',
    obtener_filtros w st = (inr r, st')
    ∧ lists_exactly
        (λ v, ∃ s, s ∈ sentencias_y_autos (tables w)
                   ∧ codigo_organo s = Some v)
        (resp_codigo_organo r)
    ∧ lists_exactly
        (λ v, ∃ s, s ∈ sentencias_y_autos (tables w)
                   ∧ codigo_recurso s = Some v)
        (resp_codigo_recurso r)
    ∧ lists_exactly
        (λ v, ∃ s, s ∈ sentencias_y_autos (tables w)
                   ∧ especialidad_expe s = Some v)
        (resp_especialidad_expe r)
    ∧ lists_exactly
        (λ v, ∃ s, s ∈ sentencias_y_autos (tables w)
                   ∧ organo_detalle s = Some v)
        (resp_organo_detalle r)
    ∧ lists_exactly
        (λ v, ∃ j sj s,
           j ∈ jueces (tables w) ∧ sj ∈ sentencias_jueces (tables w)
           ∧ s ∈ sentencias_y_autos (tables w)
           ∧ sj_codigo sj = codigo j ∧ ndetalle s = sj_ndetalle sj
           ∧ nombre_juez j = Some v)
        (resp_nombre_juez r).
Proof.
  intros (A0 & A1 & A2 & A3 & A4 & A5)%answers_six.
  rewrite obtener_filtros_run. cbn zeta.
  rewrite A0, A1, A2, A3, A4, A5.
  eexists _, _. split; [done|]. cbn [resp_codigo_organo resp_codigo_recurso
    resp_especialidad_expe resp_organo_detalle resp_nombre_juez].
  assert (∀ (f : sentencia → option string) v,
            Some v ∈ f <$> sentencias_y_autos (tables w)
            ↔ ∃ s, s ∈ sentencias_y_autos (tables w) ∧ f s = Some v) as Hcol.
  { intros f v. rewrite list_elem_of_fmap. split.
    - intros (s & ? & ?). by exists s.
    - intros (s & ? & ?). by exists s. }
  split; [|split; [|split; [|split]]].
  - eapply lists_exactly_iff, catalogue_lists_exactly. apply Hcol.
  - eapply lists_exactly_iff, catalogue_lists_exactly. apply Hcol.
  - eapply lists_exactly_iff, catalogue_lists_exactly. apply Hcol.
  - eapply lists_exactly_iff, catalogue_lists_exactly. apply Hcol.
  - eapply lists_exactly_iff, catalogue_lists_exactly.
    apply elem_of_linked_judge_names.
Qed.

Lemma obtener_filtros_distinct_sorted_witness :
  ∃ r st',
    obtener_filtros Sample.world_up start = (inr r, st')
    ∧ lists_exactly
        (λ v, ∃ s, s ∈ sentencias_y_autos (tables Sample.world_up)
                   ∧ codigo_organo s = Some v)
        (resp_codigo_organo r)
    ∧ lists_exactly
        (λ v, ∃ s, s ∈ sentencias_y_autos (tables Sample.world_up)
                   ∧ codigo_recurso s = Some v)
        (resp_codigo_recurso r)
    ∧ lists_exactly
        (λ v, ∃ s, s ∈ sentencias_y_autos (tables Sample.world_up)
                   ∧ especialidad_expe s = Some v)
        (resp_especialidad_expe r)
    ∧ lists_exactly
        (λ v, ∃ s, s ∈ sentencias_y_autos (tables Sample.world_up)
                   ∧ organo_detalle s = Some v)
        (resp_organo_detalle r)
    ∧ lists_exactly
        (λ v, ∃ j sj s,
           j ∈ jueces (tables Sample.world_up)
           ∧ sj ∈ sentencias_jueces (tables Sample.world_up)
           ∧ s ∈ sentencias_y_autos (tables Sample.world_up)
           ∧ sj_codigo sj = codigo j ∧ ndetalle s = sj_ndetalle sj
           ∧ nombre_juez j = Some v)
        (resp_nombre_juez r).
Proof.
  apply (obtener_filtros_distinct_sorted Sample.world_up start).
  reflexivity.
Defined.

End Catalogue.

(** ** Connections *)

Module Connections.
Import Py Schema Sql Runtime App Request RunFacts Catalogue.

(** Counts the connections and reads off the outcome on one path. *)
Ltac settle :=
  cbn [fst snd acquired released];
  repeat split;
  first
    [ lia
    | done
    | intros _; by eexists
    | intros _; left; by eexists
    | intros _; by right; left
    | intros _; by right; right
    | by intros [? [=]]
    | by intros [[? [=]]|[[=]|[=]]] ].

(** C9, as the code has it. Every handler opens one connection at entry,
    when the store answers the connect. It closes the connection once all
    its statements have been bound and answered: on the success path of
    the three handlers and, in /descargar, also on the 404 path and when
    the signer fails, because there the connection is closed before the
    row is looked at. When a parameter holds NUL and is refused as it is
    bound, when the store does not answer a statement, or when it rejects
    the row counts of /search, the exception leaves the handler with the
    connection still open: no handler closes it on that path. *)
Theorem connection_closed_after_last_statement w st :
  let n := round_trips st in
  let opened := (acquired st + if available w n then 1 else 0)%nat in
  (∀ d,
     let out := generar_url w d st in
     let served := answers w n 2 && negb (has_nul d) in
     acquired out.2 = opened
     ∧ released out.2 = (released st + if served then 1 else 0)%nat
     ∧ (served = true
        ↔ (∃ r, out.1 = inr r) ∨ out.1 = inl not_found
          ∨ out.1 = inl SigningError))
  ∧ (let out := obtener_filtros w st in
     acquired out.2 = opened
     ∧ released out.2 = (released st + if answers w n 6 then 1 else 0)%nat
     ∧ (answers w n 6 = true ↔ ∃ r, out.1 = inr r))
  ∧ (∀ co cr ee od nj limit offset,
     let out := buscar_sentencias w co cr ee od nj limit offset st in
     let served :=
       answers w n 3 && sendable co cr ee od nj
       && (is_row_count limit && is_row_count offset) in
     acquired out.2 = opened
     ∧ released out.2 = (released st + if served then 1 else 0)%nat
     ∧ (served = true ↔ ∃ r, out.1 = inr r)).
Proof.
  cbn zeta. unfold not_found. split; [|split].
  - intros d. rewrite generar_url_run. cbn zeta. cbn [answers Nat.add].
    destruct (available w (round_trips st)); cbn [andb]; [|settle].
    destruct (has_nul d); cbn [negb];
      [rewrite andb_false_r; settle|rewrite andb_true_r].
    destruct (available w (S (round_trips st))); cbn [andb]; [|settle].
    destruct (records (tables w) d) as [|s l]; [settle|].
    destruct (url s) as [blob_name|]; [|settle].
    destruct (generate_signed_url w bucket blob_name "v4"
                (timedelta_minutes 15) "GET"); settle.
  - rewrite obtener_filtros_run. cbn zeta. cbn [answers Nat.add].
    destruct (available w (round_trips st)); cbn [andb]; [|settle].
    do 5 (match goal with
          | |- context [available w ?k] =>
              destruct (available w k); cbn [andb]; [|settle]
          end).
    settle.
  - intros co cr ee od nj limit offset.
    rewrite buscar_sentencias_run. cbn zeta. cbn [answers Nat.add].
    destruct (available w (round_trips st)); cbn [andb]; [|settle].
    destruct (sendable co cr ee od nj); cbn [negb];
      [rewrite andb_true_r|rewrite andb_false_r; settle].
    do 2 (match goal with
          | |- context [available w ?k] =>
              destruct (available w k); cbn [andb]; [|settle]
          end).
    destruct (is_row_count limit && is_row_count offset); settle.
Qed.

(** C9 as stated fails where a statement raises. A search with
    [limit = -1] is rejected by the store on its second statement, a
    download whose store stops answering after the connect fails on its
    first, and a download or a search with a value that holds NUL is
    refused when the value is bound: all leave the handler with one
    connection opened and none closed. *)
Lemma connection_left_open_when_statement_raises :
  (let out :=
     buscar_sentencias Sample.world_up None None None None None (-1) 0 start in
   out.1 = inl (DatabaseError DataError)
   ∧ acquired out.2 = 1%nat ∧ released out.2 = 0%nat)
  ∧ (let out := generar_url Sample.world_lost "002" start in
     out.1 = inl OperationalError
     ∧ acquired out.2 = 1%nat ∧ released out.2 = 0%nat)
  ∧ (let out := generar_url Sample.world_up Sample.with_nul start in
     out.1 = inl ValueError
     ∧ acquired out.2 = 1%nat ∧ released out.2 = 0%nat)
  ∧ (let out :=
       buscar_sentencias Sample.world_up None None None None
         (Some Sample.with_nul) 10 0 start in
     out.1 = inl ValueError
     ∧ acquired out.2 = 1%nat ∧ released out.2 = 0%nat).
Proof. by vm_compute. Qed.

End Connections.

(** ** The handlers on the sample registry *)

Module Runs.
Import Py Schema Sql Runtime App.

Example count_text_with_two_filters :
  count_query (Some "A") None None None (Some "Ana")
  = nl +:+ "        SELECT COUNT(DISTINCT s.ndetalle)" +:+
    nl +:+ "        FROM sentencias_y_autos s JOIN sentencias_jueces sj ON sj.ndetalle = s.ndetalle JOIN jueces j ON j.codigo = sj.codigo" +:+
    nl +:+ "        WHERE s.codigo_organo = %s AND j.nombre_juez = %s;" +:+
    nl +:+ "    ".
Proof. reflexivity. Qed.

Example page_text_without_filters :
  select_query None None None None None
  = nl +:+ "        SELECT DISTINCT s.ndetalle, s.url" +:+
    nl +:+ "        FROM sentencias_y_autos s LEFT JOIN sentencias_jueces sj ON sj.ndetalle = s.ndetalle LEFT JOIN jueces j ON j.codigo = sj.codigo" +:+
    nl +:+ "        " +:+
    nl +:+ "        ORDER BY s.ndetalle" +:+
    nl +:+ "        LIMIT %s OFFSET %s;" +:+
    nl +:+ "    ".
Proof. reflexivity. Qed.

Example download_of_stored_document :
  generar_url Sample.world_up "002" start
  = (inr {| resp_url := "https://automatizacion-casillero/p/2.pdf?v4&GET" |},
     Build_state 2 1 1 []).
Proof. by vm_compute. Qed.

Example download_without_document :
  generar_url Sample.world_up "001" start
  = (inl (HTTPException 404 "Archivo no encontrado"), Build_state 2 1 1 []).
Proof. by vm_compute. Qed.

Example catalogue_of_sample :
  obtener_filtros Sample.world_up start
  = (inr {| resp_codigo_organo := [VStr "A"; VStr "B"];
            resp_codigo_recurso := [VStr "R1"];
            resp_especialidad_expe := [];
            resp_organo_detalle := [VStr "D"];
            resp_nombre_juez := [VStr "Ana"; VStr "Luis"] |},
     Build_state 6 1 1 []).
Proof. by vm_compute. Qed.

(** Decision "002" has two judges and is counted once; the second page of
    size one holds it. *)
Example second_page_of_everything :
  match buscar_sentencias Sample.world_up None None None None None 1 1 start with
  | (inr r, st) =>
      total_count r = VInt 3
      ∧ items r !! VStr "002" = Some (VStr "p/2.pdf")
      ∧ items r !! VStr "001" = None
      ∧ items r !! VStr "003" = None
      ∧ st = Build_state 3 1 1 []
  | _ => False
  end.
Proof. by vm_compute. Qed.

Example search_by_judge :
  match buscar_sentencias Sample.world_up None None None None (Some "Luis")
          10 0 start with
  | (inr r, _) =>
      total_count r = VInt 1
      ∧ items r !! VStr "002" = Some (VStr "p/2.pdf")
      ∧ items r !! VStr "003" = None
  | _ => False
  end.
Proof. by vm_compute. Qed.

End Runs.

(** ** Pages of /search *)

Module Paging.
Import Py Schema Sql Runtime App Request Usage OrderFacts StoreFacts PageFacts
  RunFacts Search.

(** /search returns only for row counts the store accepts. *)
Lemma buscar_sentencias_valid w co cr ee od nj limit offset st r st' :
  buscar_sentencias w co cr ee od nj limit offset st = (inr r, st') →
  row_count limit ∧ row_count offset.
Proof.
  rewrite buscar_sentencias_run. cbn zeta.
  destruct (available w (round_trips st)); [|done].
  destruct (sendable co cr ee od nj); cbn [negb]; [|done].
  destruct (available w (S (round_trips st))); [|done].
  destruct (available w (S (S (round_trips st)))); [|done].
  destruct (is_row_count limit && is_row_count offset) eqn:Hv; [|done].
  intros _. apply andb_true_iff in Hv as [Hl Ho].
  unfold is_row_count in *.
  apply andb_true_iff in Hl as [?%Z.leb_le ?%Z.ltb_lt].
  apply andb_true_iff in Ho as [?%Z.leb_le ?%Z.ltb_lt].
  by unfold row_count.
Qed.

Lemma dict_of_rows_app (a b : list (value * value)) :
  dict_of_rows (a ++ b) = dict_of_rows b ∪ dict_of_rows a.
Proof.
  unfold dict_of_rows. rewrite foldl_app.
  generalize (foldl (λ d row, <[row.1 := row.2]> d) (∅ : gmap value value) a).
  induction b as [|[k v] b IH]; intros m; simpl.
  - by rewrite (left_id_L ∅ (∪)).
  - rewrite IH, (IH (<[k:=v]> ∅)).
    rewrite <- (assoc_L (∪)). f_equal.
    by rewrite insert_union_singleton_l, insert_empty.
Qed.

Lemma dict_of_rows_lookup_Some (l : list (value * value)) k v :
  dict_of_rows l !! k = Some v → (k, v) ∈ l.
Proof.
  induction l as [|[k' v'] l IH] using rev_ind; [done|].
  rewrite dict_of_rows_app. intros Hl.
  apply lookup_union_Some_raw in Hl as [Hl|[_ Hl]].
  - unfold dict_of_rows in Hl. simpl in Hl.
    apply lookup_insert_Some in Hl as [[<- <-]|[_ Hl]]; [|done].
    apply elem_of_app. right. by left.
  - apply elem_of_app. left. by apply IH.
Qed.

Lemma dict_of_rows_size (l : list (value * value)) :
  NoDup l.*1 → size (dict_of_rows l) = length l.
Proof.
  induction l as [|[k v] l IH] using rev_ind; [done|].
  rewrite fmap_app, length_app. simpl. intros Hnd.
  apply NoDup_app in Hnd as (Hl & Hk & _).
  rewrite dict_of_rows_app. unfold dict_of_rows at 1. simpl.
  rewrite <- insert_union_l, (left_id_L ∅ (∪)).
  rewrite map_size_insert_None.
  - rewrite IH by done. lia.
  - apply dict_of_rows_absent. intros Hin. apply (Hk k Hin). by left.
Qed.

Lemma page_keys (l : list (list value)) : (cells01 <$> l).*1 = key 0 <$> l.
Proof. rewrite <- list_fmap_compose. by apply list_fmap_ext. Qed.

Section Filters.
Variable db : database.
Variables co cr ee od nj : option string.

Lemma all_rows_length_unique :
  NoDup (ndetalle <$> sentencias_y_autos db) →
  length (all_rows db co cr ee od nj) = size (matching_ids db co cr ee od nj).
Proof.
  intros Hnd. rewrite <- all_rows_distinct_ids.
  rewrite <- (length_fmap (key 0) (all_rows db co cr ee od nj)).
  apply Permutation_length, NoDup_Permutation.
  - by apply all_rows_keys_NoDup.
  - apply NoDup_remove_dups.
  - intros x. by rewrite elem_of_remove_dups.
Qed.

Lemma window_rows_matching limit offset row :
  row ∈ window limit offset (all_rows db co cr ee od nj) →
  ∃ r, r ∈ matching_rows db co cr ee od nj ∧ row = pair_row r.
Proof.
  intros Hin.
  apply (λ H, elem_of_sublist _ _ _ H (window_sublist _ _ _)) in Hin.
  by apply elem_of_all_rows.
Qed.

End Filters.

(** X1. With unique identifiers, the page of /search holds as many
    entries as are left of the counted decisions after skipping [offset]
    of them, and at most [limit]. *)
Theorem page_size w co cr ee od nj limit offset st r st' :
  NoDup (ndetalle <$> sentencias_y_autos (tables w)) →
  buscar_sentencias w co cr ee od nj limit offset st = (inr r, st') →
  ∃ n : nat,
    total_count r = VInt (Z.of_nat n)
    ∧ size (items r) = (Z.to_nat limit `min` (n - Z.to_nat offset))%nat.
Proof.
  intros Hnd Hrun.
  rewrite (buscar_sentencias_returns _ _ _ _ _ _ _ _ _ _ _ Hrun).
  eexists. split; [done|]. cbn [items].
  rewrite dict_of_rows_size.
  - rewrite length_fmap. unfold window.
    by rewrite length_take, length_drop, all_rows_length_unique.
  - rewrite page_keys.
    apply (sublist_NoDup _ (key 0 <$> all_rows (tables w) co cr ee od nj)).
    + by apply all_rows_keys_NoDup.
    + apply fmap_sublist, window_sublist.
Qed.

Lemma page_size_witness :
  ∃ n : nat,
    VInt 3 = VInt (Z.of_nat n)
    ∧ size (dict_of_rows
              (cells01 <$> window 2 2
                 (all_rows Sample.registry None None None None None)))
      = (Z.to_nat 2 `min` (n - Z.to_nat 2))%nat.
Proof.
  apply (page_size Sample.world_up None None None None None 2 2 start
           {| total_count := VInt 3;
              items :=
                dict_of_rows
                  (cells01 <$> window 2 2
                     (all_rows Sample.registry None None None None None)) |}
           (Build_state 3 1 1 [])).
  - apply (bool_decide_unpack _). vm_compute. exact I.
  - vm_compute. reflexivity.
Defined.

(** X2. With unique identifiers, two consecutive pages of /search share
    no identifier, and the second merged over the first is the one page of
    both sizes together at the first offset. *)
Theorem consecutive_pages_merge w co cr ee od nj limit limit' offset
    st1 st2 st3 r1 r2 r st1' st2' st3' :
  NoDup (ndetalle <$> sentencias_y_autos (tables w)) →
  buscar_sentencias w co cr ee od nj limit offset st1 = (inr r1, st1') →
  buscar_sentencias w co cr ee od nj limit' (offset + limit) st2
  = (inr r2, st2') →
  buscar_sentencias w co cr ee od nj (limit + limit') offset st3
  = (inr r, st3') →
  items r = items r2 ∪ items r1
  ∧ ∀ k, k ∈ dom (items r1) → k ∉ dom (items r2).
Proof.
  intros Hnd H1 H2 H3.
  destruct (buscar_sentencias_valid _ _ _ _ _ _ _ _ _ _ _ H1) as [[? _] [? _]].
  destruct (buscar_sentencias_valid _ _ _ _ _ _ _ _ _ _ _ H2) as [[? _] _].
  rewrite (buscar_sentencias_returns _ _ _ _ _ _ _ _ _ _ _ H1).
  rewrite (buscar_sentencias_returns _ _ _ _ _ _ _ _ _ _ _ H2).
  rewrite (buscar_sentencias_returns _ _ _ _ _ _ _ _ _ _ _ H3).
  cbn [items]. split.
  - rewrite <- dict_of_rows_app, <- fmap_app. do 2 f_equal.
    unfold window. rewrite !Z2Nat.inj_add by done.
    by rewrite <- drop_drop, take_take_drop.
  - intros k [v1 Hk1%dict_of_rows_lookup_Some]%elem_of_dom
             [v2 Hk2%dict_of_rows_lookup_Some]%elem_of_dom.
    apply (list_elem_of_fmap_2 fst) in Hk1, Hk2.
    rewrite page_keys in Hk1, Hk2. cbn [fst] in Hk1, Hk2.
    unfold window in Hk1, Hk2.
    rewrite Z2Nat.inj_add, <- drop_drop in Hk2 by done.
    pose proof (all_rows_keys_NoDup (tables w) co cr ee od nj Hnd) as Hkeys.
    rewrite <- (take_drop (Z.to_nat offset)
                  (all_rows (tables w) co cr ee od nj)) in Hkeys.
    rewrite fmap_app in Hkeys. apply NoDup_app in Hkeys as (_ & _ & Hkeys).
    rewrite <- (take_drop (Z.to_nat limit)
                  (drop (Z.to_nat offset)
                     (all_rows (tables w) co cr ee od nj))) in Hkeys.
    rewrite fmap_app in Hkeys. apply NoDup_app in Hkeys as (_ & Hdisj & _).
    apply (Hdisj k Hk1), (elem_of_sublist _ _ _ Hk2).
    apply fmap_sublist, sublist_take.
Qed.

Lemma consecutive_pages_merge_witness :
  dict_of_rows
    (cells01 <$> window (1 + 1) 0
       (all_rows Sample.registry None None None None None))
  = dict_of_rows
      (cells01 <$> window 1 (0 + 1)
         (all_rows Sample.registry None None None None None))
    ∪ dict_of_rows
        (cells01 <$> window 1 0
           (all_rows Sample.registry None None None None None))
  ∧ ∀ k,
      k ∈ dom (dict_of_rows
                 (cells01 <$> window 1 0
                    (all_rows Sample.registry None None None None None))) →
      k ∉ dom (dict_of_rows
                 (cells01 <$> window 1 (0 + 1)
                    (all_rows Sample.registry None None None None None))).
Proof.
  apply (consecutive_pages_merge Sample.world_up None None None None None
           1 1 0 start start start
           (Build_search_response (VInt 3)
              (dict_of_rows
                 (cells01 <$> window 1 0
                    (all_rows Sample.registry None None None None None))))
           (Build_search_response (VInt 3)
              (dict_of_rows
                 (cells01 <$> window 1 (0 + 1)
                    (all_rows Sample.registry None None None None None))))
           (Build_search_response (VInt 3)
              (dict_of_rows
                 (cells01 <$> window (1 + 1) 0
                    (all_rows Sample.registry None None None None None))))
           (Build_state 3 1 1 []) (Build_state 3 1 1 [])
           (Build_state 3 1 1 [])).
  - apply (bool_decide_unpack _). vm_compute. exact I.
  - vm_compute. reflexivity.
  - vm_compute. reflexivity.
  - vm_compute. reflexivity.
Defined.

(** X3. Every entry of the page of /search is a decision record of the
    table with its own storage path; the record satisfies the direct
    predicates of the request and, when [nombre_juez] is given, it is
    associated to a judge. *)
Theorem items_are_matching_decisions w co cr ee od nj limit offset st r st' k v :
  buscar_sentencias w co cr ee od nj limit offset st = (inr r, st') →
  items r !! k = Some v →
  ∃ s, s ∈ sentencias_y_autos (tables w)
       ∧ k = VStr (ndetalle s) ∧ v = of_option (url s)
       ∧ fulfils_direct co cr ee od s
       ∧ (nj ≠ None → has_judge (tables w) (ndetalle s)).
Proof.
  intros Hrun.
  rewrite (buscar_sentencias_returns _ _ _ _ _ _ _ _ _ _ _ Hrun).
  cbn [items]. intros Hkv%dict_of_rows_lookup_Some.
  apply list_elem_of_fmap in Hkv as (row & Hrow & Hin).
  apply window_rows_matching in Hin as (m & Hm & ->).
  injection Hrow as -> ->.
  exists (r_s m). split; [by eapply matching_rows_decision|].
  do 2 (split; [done|]). split.
  - apply elem_of_matching_rows in Hm as [_ Hf%matches_fulfils].
    destruct Hf as (? & ? & ? & ? & _). by repeat split.
  - intros Hnj. destruct nj as [x|]; [|done].
    destruct (matching_with_judge _ _ _ _ _ _ _ Hm)
      as (sj & j & ? & ? & ? & ? & _).
    by exists sj, j.
Qed.

Lemma items_are_matching_decisions_witness :
  ∃ s, s ∈ sentencias_y_autos (tables Sample.world_up)
       ∧ VStr "002" = VStr (ndetalle s) ∧ VStr "p/2.pdf" = of_option (url s)
       ∧ fulfils_direct (Some "A") None None None s
       ∧ (Some "Ana" ≠ None → has_judge (tables Sample.world_up) (ndetalle s)).
Proof.
  apply (items_are_matching_decisions Sample.world_up
           (Some "A") None None None (Some "Ana") 10 0 start
           (Build_search_response (VInt 1)
              (dict_of_rows [(VStr "002", VStr "p/2.pdf")]))
           (Build_state 3 1 1 [])).
  - vm_compute. reflexivity.
  - vm_compute. reflexivity.
Defined.

(** X4. Pages come in ascending order: when one page ends at or before
    the offset of another, no identifier on the first is above an
    identifier on the second. *)
Theorem later_pages_hold_larger_ids w co cr ee od nj limit offset
    limit' offset' st1 st2 r1 r2 st1' st2' k1 k2 :
  buscar_sentencias w co cr ee od nj limit offset st1 = (inr r1, st1') →
  buscar_sentencias w co cr ee od nj limit' offset' st2 = (inr r2, st2') →
  offset + limit ≤ offset' →
  k1 ∈ dom (items r1) → k2 ∈ dom (items r2) →
  value_le_rel k1 k2.
Proof.
  intros H1 H2 Hle.
  destruct (buscar_sentencias_valid _ _ _ _ _ _ _ _ _ _ _ H1) as [[? _] [? _]].
  rewrite (buscar_sentencias_returns _ _ _ _ _ _ _ _ _ _ _ H1).
  rewrite (buscar_sentencias_returns _ _ _ _ _ _ _ _ _ _ _ H2).
  cbn [items].
  intros [v1 Hk1%dict_of_rows_lookup_Some]%elem_of_dom
         [v2 Hk2%dict_of_rows_lookup_Some]%elem_of_dom.
  apply list_elem_of_fmap in Hk1 as (row1 & [= -> _] & Hin1).
  apply list_elem_of_fmap in Hk2 as (row2 & [= -> _] & Hin2).
  change (row_le 0 row1 row2).
  pose proof (all_rows_sorted (tables w) co cr ee od nj) as Hsorted.
  rewrite <- (take_drop (Z.to_nat offset')) in Hsorted.
  eapply (StronglySorted_app_1_elem_of _ _ _ _ _ Hsorted).
  - unfold window in Hin1. rewrite take_drop_commute in Hin1.
    apply (λ H, elem_of_sublist _ _ _ H (sublist_drop _ _)) in Hin1.
    replace (Z.to_nat offset + Z.to_nat limit)%nat
      with ((Z.to_nat offset + Z.to_nat limit) `min` Z.to_nat offset')%nat
      in Hin1 by lia.
    rewrite <- take_take in Hin1.
    by apply (λ H, elem_of_sublist _ _ _ H (sublist_take _ _)) in Hin1.
  - unfold window in Hin2.
    by apply (λ H, elem_of_sublist _ _ _ H (sublist_take _ _)) in Hin2.
Qed.

Lemma later_pages_hold_larger_ids_witness :
  value_le_rel (VStr "001") (VStr "003").
Proof.
  apply (later_pages_hold_larger_ids Sample.world_up None None None None None
           1 0 1 2 start start
           (Build_search_response (VInt 3) (dict_of_rows [(VStr "001", VNone)]))
           (Build_search_response (VInt 3)
              (dict_of_rows [(VStr "003", VStr "p/3.pdf")]))
           (Build_state 3 1 1 []) (Build_state 3 1 1 [])).
  - vm_compute. reflexivity.
  - vm_compute. reflexivity.
  - lia.
  - apply elem_of_dom. exists VNone. vm_compute. reflexivity.
  - apply elem_of_dom. exists (VStr "p/3.pdf"). vm_compute. reflexivity.
Defined.

End Paging.

(** ** Requests compared, and the handlers used together *)

Module Together.
Import Py Schema Sql Runtime App Request Usage OrderFacts StoreFacts PageFacts
  RunFacts Search Catalogue Paging.


Lemma asks_falsy filtro actual : truthy filtro = false → asks filtro actual.
Proof. intros Hf v -> Hv. by destruct v. Qed.





Lemma remove_dups_length_le {A} `{EqDecision A} (l : list A) :
  (length (remove_dups l) ≤ length l)%nat.
Proof.
  induction l as [|x l IH]; simpl; [done|].
  destruct (decide_rel elem_of x l); simpl; lia.
Qed.

(** X6. The join never inflates the count: [total_count] is at most the
    number of decision records, however many judges they have. With unique
    identifiers, a request without any filter counts every record. *)
Theorem count_bounded_by_records w co cr ee od nj limit offset st r st' :
  buscar_sentencias w co cr ee od nj limit offset st = (inr r, st') →
  ∃ n : nat,
    total_count r = VInt (Z.of_nat n)
    ∧ (n ≤ length (sentencias_y_autos (tables w)))%nat
    ∧ (truthy co = false → truthy cr = false → truthy ee = false →
       truthy od = false → nj = None →
       NoDup (ndetalle <$> sentencias_y_autos (tables w)) →
       n = length (sentencias_y_autos (tables w))).
Proof.
  intros Hrun.
  rewrite (buscar_sentencias_returns _ _ _ _ _ _ _ _ _ _ _ Hrun).
  eexists. split; [done|]. split.
  - etransitivity;
      [apply (subseteq_size _
                (list_to_set (ndetalle <$> sentencias_y_autos (tables w))))|].
    + intros d (m & Hm & <- & _)%elem_of_matching_ids.
      apply elem_of_list_to_set, list_elem_of_fmap_2.
      by eapply rows_of_decision.
    + rewrite size_list_to_set_remove_dups, <- (length_fmap ndetalle).
      apply remove_dups_length_le.
  - intros Hco Hcr Hee Hod -> Hnd.
    rewrite <- (length_fmap ndetalle), <- (size_list_to_set (C:=gset string))
      by done.
    f_equal. apply set_eq. intros d.
    rewrite elem_of_list_to_set, list_elem_of_fmap, elem_of_matching_ids.
    split.
    + intros (m & Hm & <- & _). exists (r_s m). split; [done|].
      by apply rows_of_left_decision.
    + intros (s & -> & Hs).
      destruct (matching_without_judge_row (tables w) co cr ee od s Hs)
        as (m & [Hm Hf]%elem_of_matching_rows & <-).
      { by repeat split; apply asks_falsy. }
      by exists m.
Qed.

Lemma count_bounded_by_records_witness :
  ∃ n : nat,
    VInt 3 = VInt (Z.of_nat n)
    ∧ (n ≤ length (sentencias_y_autos (tables Sample.world_up)))%nat
    ∧ (truthy None = false → truthy (Some "") = false → truthy None = false →
       truthy None = false → @None string = None →
       NoDup (ndetalle <$> sentencias_y_autos (tables Sample.world_up)) →
       n = length (sentencias_y_autos (tables Sample.world_up))).
Proof.
  apply (count_bounded_by_records Sample.world_up
           None (Some "") None None None 1 0 start
           (Build_search_response (VInt 3)
              (dict_of_rows
                 (cells01 <$> window 1 0
                    (all_rows Sample.registry None (Some "") None None None))))
           (Build_state 3 1 1 [])).
  vm_compute. reflexivity.
Defined.

Lemma elem_of_catalogue vals v : VStr v ∈ catalogue vals ↔ Some v ∈ vals.
Proof.
  destruct (catalogue_lists_exactly vals) as [_ Hin]. rewrite Hin. split.
  - by intros (s & [= <-] & Hs).
  - intros Hv. by exists v.
Qed.

Lemma asks_given v actual : v ≠ "" → asks (Some v) actual ↔ actual = Some v.
Proof.
  intros Hv. split.
  - intros Ha. by apply Ha.
  - by intros -> v' [= <-] _.
Qed.

Lemma count_nonzero (X : gset string) :
  VInt (Z.of_nat (size X)) ≠ VInt 0 ↔ ∃ d, d ∈ X.
Proof.
  split.
  - intros Hn. apply set_choose_L. intros ->. by rewrite size_empty in Hn.
  - intros [d Hd] [= Hs]. assert (size X = 0%nat) as Hz by lia.
    apply size_empty_iff in Hz. apply Hz in Hd. by apply not_elem_of_empty in Hd.
Qed.

(** A request with one direct filter finds something exactly when some
    record has the value in the filtered column. *)
Lemma direct_match_iff db co cr ee od (P : sentencia → Prop) :
  (∀ s, fulfils_direct co cr ee od s ↔ P s) →
  (∃ d, d ∈ matching_ids db co cr ee od None)
  ↔ ∃ s, s ∈ sentencias_y_autos db ∧ P s.
Proof.
  intros HP. split.
  - intros (d & (m & Hm & <- & Hf)%elem_of_matching_ids).
    exists (r_s m). split; [by apply rows_of_left_decision|].
    by apply HP, fulfils_without_judge, matches_fulfils.
  - intros (s & Hs & Hp).
    destruct (matching_without_judge_row db co cr ee od s Hs)
      as (m & [Hm Hf]%elem_of_matching_rows & <-); [by apply HP|].
    exists (ndetalle (r_s m)). apply elem_of_matching_ids. by exists m.
Qed.

Lemma judge_match_iff db v :
  v ≠ "" →
  (∃ d, d ∈ matching_ids db None None None None (Some v))
  ↔ Some v ∈ linked_judge_names db.
Proof.
  intros Hv. rewrite elem_of_linked_judge_names. split.
  - intros (d & (m & Hm & <- & Hf)%elem_of_matching_ids).
    apply elem_of_rows_of_inner in Hm
      as (s & sj & j & ? & ? & ? & ? & ? & ->).
    apply matches_fulfils in Hf as (_ & _ & _ & _ & Hj).
    exists j, sj, s. repeat split; try done. exact (Hj v eq_refl Hv).
  - intros (j & sj & s & Hj & Hsj & Hs & E1 & E2 & Hn).
    exists (ndetalle s). apply elem_of_matching_ids.
    exists (Build_joined s (Some sj) (Some j)). split; [|split; [done|]].
    + apply elem_of_rows_of_inner. exists s, sj, j. by repeat split.
    + apply matches_fulfils. repeat split; try (by intros ? [=]).
      by apply asks_given.
Qed.

(** What /filters can offer is stored text, which holds no NUL. *)
Lemma stored_value db (f : sentencia → option string) v :
  (∀ s, clean_sentencia s = true → clean (f s) = true) →
  Some v ∈ f <$> sentencias_y_autos db → has_nul v = false.
Proof.
  intros Hf (s & Hv & Hs)%list_elem_of_fmap.
  apply stored_sentencia, Hf in Hs. rewrite <- Hv in Hs.
  by apply negb_true_iff.
Qed.

Lemma stored_judge_name db v :
  Some v ∈ linked_judge_names db → has_nul v = false.
Proof.
  intros (j & sj & s & Hj & _ & _ & _ & _ & Hn)%elem_of_linked_judge_names.
  apply stored_juez in Hj. unfold clean_juez in Hj.
  apply andb_true_iff in Hj as [_ Hj]. rewrite Hn in Hj.
  by apply negb_true_iff.
Qed.

Lemma clean_columns s :
  clean_sentencia s = true →
  clean (codigo_organo s) = true ∧ clean (codigo_recurso s) = true
  ∧ clean (especialidad_expe s) = true ∧ clean (organo_detalle s) = true.
Proof. unfold clean_sentencia. rewrite !andb_true_iff. tauto. Qed.

(** /search by the filters given finds at least one decision. *)
Lemma finds_iff w co cr ee od nj limit offset st :
  answers w (round_trips st) 3 = true →
  row_count limit → row_count offset →
  (∃ r st',
     buscar_sentencias w co cr ee od nj limit offset st = (inr r, st')
     ∧ total_count r ≠ VInt 0)
  ↔ sendable co cr ee od nj = true
    ∧ ∃ d, d ∈ matching_ids (tables w) co cr ee od nj.
Proof.
  intros Hup Hl Ho. destruct (sendable co cr ee od nj) eqn:Hsend.
  - rewrite buscar_sentencias_ok by done. rewrite <- count_nonzero. split.
    + intros (r & st' & [= <- _] & Hr). by split.
    + intros [_ Hr]. by eexists _, _.
  - apply answers_three in Hup as [A0 _].
    rewrite (buscar_sentencias_unsendable _ _ _ _ _ _ _ _ _ A0 Hsend).
    split; [by intros (? & ? & [=] & _)|by intros [[=] _]].
Qed.

(** X7. /filters and /search agree: when the store answers, a non-empty
    value is offered by /filters for an attribute exactly when /search by
    that value alone returns and counts at least one decision. (A value
    that holds NUL is never offered, and /search by it raises; /search by
    a value without NUL returns.) *)
Theorem offered_values_are_those_with_results w v limit offset st st2 :
  v ≠ "" →
  answers w (round_trips st) 6 = true →
  answers w (round_trips st2) 3 = true →
  row_count limit → row_count offset →
  ∃ f stf,
    obtener_filtros w st = (inr f, stf)
    ∧ (VStr v ∈ resp_codigo_organo f
       ↔ ∃ r st',
           buscar_sentencias w (Some v) None None None None limit offset st2
           = (inr r, st')
           ∧ total_count r ≠ VInt 0)
    ∧ (VStr v ∈ resp_codigo_recurso f
       ↔ ∃ r st',
           buscar_sentencias w None (Some v) None None None limit offset st2
           = (inr r, st')
           ∧ total_count r ≠ VInt 0)
    ∧ (VStr v ∈ resp_especialidad_expe f
       ↔ ∃ r st',
           buscar_sentencias w None None (Some v) None None limit offset st2
           = (inr r, st')
           ∧ total_count r ≠ VInt 0)
    ∧ (VStr v ∈ resp_organo_detalle f
       ↔ ∃ r st',
           buscar_sentencias w None None None (Some v) None limit offset st2
           = (inr r, st')
           ∧ total_count r ≠ VInt 0)
    ∧ (VStr v ∈ resp_nombre_juez f
       ↔ ∃ r st',
           buscar_sentencias w None None None None (Some v) limit offset st2
           = (inr r, st')
           ∧ total_count r ≠ VInt 0)
    ∧ (has_nul v = false →
       ∃ r1 r2 r3 r4 r5 st1' st2' st3' st4' st5',
         buscar_sentencias w (Some v) None None None None limit offset st2
         = (inr r1, st1')
         ∧ buscar_sentencias w None (Some v) None None None limit offset st2
           = (inr r2, st2')
         ∧ buscar_sentencias w None None (Some v) None None limit offset st2
           = (inr r3, st3')
         ∧ buscar_sentencias w None None None (Some v) None limit offset st2
           = (inr r4, st4')
         ∧ buscar_sentencias w None None None None (Some v) limit offset st2
           = (inr r5, st5')).
Proof.
  intros Hv (A0 & A1 & A2 & A3 & A4 & A5)%answers_six Hup Hl Ho.
  rewrite obtener_filtros_run. cbn zeta. rewrite A0, A1, A2, A3, A4, A5.
  eexists _, _. split; [done|].
  cbn [resp_codigo_organo resp_codigo_recurso resp_especialidad_expe
         resp_organo_detalle resp_nombre_juez].
  assert (∀ (f : sentencia → option string),
            Some v ∈ f <$> sentencias_y_autos (tables w)
            ↔ ∃ s, s ∈ sentencias_y_autos (tables w) ∧ f s = Some v) as Hcol.
  { intros f. rewrite list_elem_of_fmap. split.
    - intros (s & ? & ?). by exists s.
    - intros (s & ? & ?). by exists s. }
  assert (∀ co cr ee od nj,
            sendable co cr ee od nj = true
            ∧ (∃ d, d ∈ matching_ids (tables w) co cr ee od nj)
            ↔ ∃ r st',
                buscar_sentencias w co cr ee od nj limit offset st2
                = (inr r, st')
                ∧ total_count r ≠ VInt 0) as Hfinds.
  { intros. symmetry. by apply finds_iff. }
  split; [|split; [|split; [|split; [|split]]]].
  - rewrite <- Hfinds, elem_of_catalogue. split.
    + intros Hin. split.
      * unfold sendable, clean.
        rewrite (stored_value (tables w) codigo_organo v); [done| |done].
        intros s Hs. by apply clean_columns in Hs as (? & ? & ? & ?).
      * revert Hin. rewrite Hcol. apply direct_match_iff. intros s.
        unfold fulfils_direct. rewrite asks_given by done.
        split; [tauto|]. by repeat split; try (by intros ? [=]).
    + intros [_ Hd]. rewrite Hcol. revert Hd. apply direct_match_iff.
      intros s. unfold fulfils_direct. rewrite asks_given by done.
      split; [tauto|]. by repeat split; try (by intros ? [=]).
  - rewrite <- Hfinds, elem_of_catalogue. split.
    + intros Hin. split.
      * unfold sendable, clean.
        rewrite (stored_value (tables w) codigo_recurso v); [done| |done].
        intros s Hs. by apply clean_columns in Hs as (? & ? & ? & ?).
      * revert Hin. rewrite Hcol. apply direct_match_iff. intros s.
        unfold fulfils_direct. rewrite asks_given by done.
        split; [tauto|]. by repeat split; try (by intros ? [=]).
    + intros [_ Hd]. rewrite Hcol. revert Hd. apply direct_match_iff.
      intros s. unfold fulfils_direct. rewrite asks_given by done.
      split; [tauto|]. by repeat split; try (by intros ? [=]).
  - rewrite <- Hfinds, elem_of_catalogue. split.
    + intros Hin. split.
      * unfold sendable, clean.
        rewrite (stored_value (tables w) especialidad_expe v); [done| |done].
        intros s Hs. by apply clean_columns in Hs as (? & ? & ? & ?).
      * revert Hin. rewrite Hcol. apply direct_match_iff. intros s.
        unfold fulfils_direct. rewrite asks_given by done.
        split; [tauto|]. by repeat split; try (by intros ? [=]).
    + intros [_ Hd]. rewrite Hcol. revert Hd. apply direct_match_iff.
      intros s. unfold fulfils_direct. rewrite asks_given by done.
      split; [tauto|]. by repeat split; try (by intros ? [=]).
  - rewrite <- Hfinds, elem_of_catalogue. split.
    + intros Hin. split.
      * unfold sendable, clean.
        rewrite (stored_value (tables w) organo_detalle v); [done| |done].
        intros s Hs. by apply clean_columns in Hs as (? & ? & ? & ?).
      * revert Hin. rewrite Hcol. apply direct_match_iff. intros s.
        unfold fulfils_direct. rewrite asks_given by done.
        split; [tauto|]. by repeat split; try (by intros ? [=]).
    + intros [_ Hd]. rewrite Hcol. revert Hd. apply direct_match_iff.
      intros s. unfold fulfils_direct. rewrite asks_given by done.
      split; [tauto|]. by repeat split; try (by intros ? [=]).
  - rewrite <- Hfinds, elem_of_catalogue. split.
    + intros Hin. split.
      * unfold sendable, clean. by rewrite (stored_judge_name _ v Hin).
      * by apply judge_match_iff.
    + intros [_ Hd]. by apply judge_match_iff.
  - intros Hclean.
    assert (∀ co cr ee od nj,
              sendable co cr ee od nj = true →
              ∃ r st',
                buscar_sentencias w co cr ee od nj limit offset st2
                = (inr r, st')) as Hret.
    { intros. rewrite buscar_sentencias_ok by done. by eexists _, _. }
    destruct (Hret (Some v) None None None None) as (r1 & s1 & E1);
      [unfold sendable, clean; by rewrite Hclean|].
    destruct (Hret None (Some v) None None None) as (r2 & s2 & E2);
      [unfold sendable, clean; by rewrite Hclean|].
    destruct (Hret None None (Some v) None None) as (r3 & s3 & E3);
      [unfold sendable, clean; by rewrite Hclean|].
    destruct (Hret None None None (Some v) None) as (r4 & s4 & E4);
      [unfold sendable, clean; by rewrite Hclean|].
    destruct (Hret None None None None (Some v)) as (r5 & s5 & E5);
      [unfold sendable, clean; by rewrite Hclean|].
    by exists r1, r2, r3, r4, r5, s1, s2, s3, s4, s5.
Qed.

Lemma offered_values_are_those_with_results_witness :
  ∃ f stf,
    obtener_filtros Sample.world_up start = (inr f, stf)
    ∧ (VStr "Ana" ∈ resp_codigo_organo f
       ↔ ∃ r st',
           buscar_sentencias Sample.world_up (Some "Ana") None None None None
             10 0 start = (inr r, st')
           ∧ total_count r ≠ VInt 0)
    ∧ (VStr "Ana" ∈ resp_codigo_recurso f
       ↔ ∃ r st',
           buscar_sentencias Sample.world_up None (Some "Ana") None None None
             10 0 start = (inr r, st')
           ∧ total_count r ≠ VInt 0)
    ∧ (VStr "Ana" ∈ resp_especialidad_expe f
       ↔ ∃ r st',
           buscar_sentencias Sample.world_up None None (Some "Ana") None None
             10 0 start = (inr r, st')
           ∧ total_count r ≠ VInt 0)
    ∧ (VStr "Ana" ∈ resp_organo_detalle f
       ↔ ∃ r st',
           buscar_sentencias Sample.world_up None None None (Some "Ana") None
             10 0 start = (inr r, st')
           ∧ total_count r ≠ VInt 0)
    ∧ (VStr "Ana" ∈ resp_nombre_juez f
       ↔ ∃ r st',
           buscar_sentencias Sample.world_up None None None None (Some "Ana")
             10 0 start = (inr r, st')
           ∧ total_count r ≠ VInt 0)
    ∧ (has_nul "Ana" = false →
       ∃ r1 r2 r3 r4 r5 st1' st2' st3' st4' st5',
         buscar_sentencias Sample.world_up (Some "Ana") None None None None
           10 0 start = (inr r1, st1')
         ∧ buscar_sentencias Sample.world_up None (Some "Ana") None None None
             10 0 start = (inr r2, st2')
         ∧ buscar_sentencias Sample.world_up None None (Some "Ana") None None
             10 0 start = (inr r3, st3')
         ∧ buscar_sentencias Sample.world_up None None None (Some "Ana") None
             10 0 start = (inr r4, st4')
         ∧ buscar_sentencias Sample.world_up None None None None (Some "Ana")
             10 0 start = (inr r5, st5')).
Proof.
  apply (offered_values_are_those_with_results Sample.world_up "Ana" 10 0
           start start).
  - discriminate.
  - reflexivity.
  - reflexivity.
  - unfold row_count. lia.
  - unfold row_count. lia.
Defined.

(** X8. Every statement the handlers send takes as many parameters as
    its text has [%s]: the two texts of /search for every combination of
    filters, the text of /descargar, and the five of /filters, which have
    none. *)
Theorem placeholders_match_parameters co cr ee od nj limit offset d :
  placeholders (count_query co cr ee od nj)
  = length (params co cr ee od nj)
  ∧ placeholders (select_query co cr ee od nj)
    = length (params_with_pagination co cr ee od nj limit offset)
  ∧ placeholders "SELECT url FROM sentencias_y_autos WHERE ndetalle = %s"
    = length [VStr d]
  ∧ Forall (λ text, placeholders text = length (@nil value))
      [ "SELECT DISTINCT codigo_organo FROM sentencias_y_autos WHERE codigo_organo IS NOT NULL;";
        "SELECT DISTINCT codigo_recurso FROM sentencias_y_autos WHERE codigo_recurso IS NOT NULL;";
        "SELECT DISTINCT especialidad_expe FROM sentencias_y_autos WHERE especialidad_expe IS NOT NULL;";
        "SELECT DISTINCT organo_detalle FROM sentencias_y_autos WHERE organo_detalle IS NOT NULL;";
        nl +:+ "        SELECT DISTINCT j.nombre_juez" +:+
        nl +:+ "        FROM jueces j" +:+
        nl +:+ "        JOIN sentencias_jueces sj ON sj.codigo = j.codigo" +:+
        nl +:+ "        JOIN sentencias_y_autos s ON s.ndetalle = sj.ndetalle" +:+
        nl +:+ "        WHERE j.nombre_juez IS NOT NULL;" +:+
        nl +:+ "    " ].
Proof.
  split; [|split; [|split]].
  - unfold count_query, where_sql, filtros_where, from_clause,
      necesita_join_jueces, params.
    generalize (truthy co), (truthy cr), (truthy ee), (truthy od), (truthy nj),
      (is_not_None nj).
    intros [] [] [] [] [] []; vm_compute; reflexivity.
  - unfold select_query, where_sql, filtros_where, from_clause,
      necesita_join_jueces, params_with_pagination, params.
    generalize (truthy co), (truthy cr), (truthy ee), (truthy od), (truthy nj),
      (is_not_None nj).
    intros [] [] [] [] [] []; vm_compute; reflexivity.
  - vm_compute. reflexivity.
  - repeat constructor.
Qed.

(** X9. /descargar never signs for a decision that is not there: a URL
    it returns is the one the bucket signs, for reading during 15 minutes,
    for the storage path of a record that has the identifier. *)
Theorem signed_url_is_of_a_record w d st r st' :
  generar_url w d st = (inr r, st') →
  ∃ s blob_name,
    s ∈ sentencias_y_autos (tables w) ∧ ndetalle s = d
    ∧ url s = Some blob_name
    ∧ generate_signed_url w "automatizacion-casillero" blob_name "v4" 900 "GET"
      = Some (resp_url r).
Proof.
  rewrite generar_url_run. cbn zeta.
  destruct (available w (round_trips st)); [|done].
  destruct (has_nul d); [done|].
  destruct (available w (S (round_trips st))); [|done].
  destruct (records (tables w) d) as [|s l] eqn:Hrec; [done|].
  assert (s ∈ records (tables w) d) as [Heq Hs]%list_elem_of_filter
    by (rewrite Hrec; left).
  destruct (url s) as [blob_name|] eqn:Hurl; [|done].
  change (timedelta_minutes 15) with 900. unfold bucket.
  destruct (generate_signed_url w "automatizacion-casillero" blob_name "v4"
              900 "GET") as [u|] eqn:Hsign; [|done].
  intros [= <- _]. by exists s, blob_name.
Qed.

Lemma signed_url_is_of_a_record_witness :
  ∃ s blob_name,
    s ∈ sentencias_y_autos (tables Sample.world_up) ∧ ndetalle s = "003"
    ∧ url s = Some blob_name
    ∧ generate_signed_url Sample.world_up "automatizacion-casillero" blob_name
        "v4" 900 "GET"
      = Some "https://automatizacion-casillero/p/3.pdf?v4&GET".
Proof.
  apply (signed_url_is_of_a_record Sample.world_up "003" start
           {| resp_url := "https://automatizacion-casillero/p/3.pdf?v4&GET" |}
           (Build_state 2 1 1 [])).
  vm_compute. reflexivity.
Defined.

Lemma item_is_of_a_decision w co cr ee od nj limit offset st r st' k v :
  buscar_sentencias w co cr ee od nj limit offset st = (inr r, st') →
  items r !! k = Some v →
  ∃ s, s ∈ sentencias_y_autos (tables w)
       ∧ k = VStr (ndetalle s) ∧ v = of_option (url s).
Proof.
  intros Hrun.
  rewrite (buscar_sentencias_returns _ _ _ _ _ _ _ _ _ _ _ Hrun).
  cbn [items]. intros Hkv%dict_of_rows_lookup_Some.
  apply list_elem_of_fmap in Hkv as (row & Hrow & Hin).
  apply window_rows_matching in Hin as (m & Hm & ->).
  injection Hrow as -> ->.
  exists (r_s m). split; [by eapply matching_rows_decision|done].
Qed.

(** X10. What /search returns can be downloaded: with unique
    identifiers, /descargar on a key of [items] answers from the value
    stored under it, the signed URL of that storage path, or 404 when the
    value is null. *)
Theorem search_results_resolve w co cr ee od nj limit offset st r st' d v st2 :
  NoDup (ndetalle <$> sentencias_y_autos (tables w)) →
  buscar_sentencias w co cr ee od nj limit offset st = (inr r, st') →
  items r !! VStr d = Some v →
  answers w (round_trips st2) 2 = true →
  (generar_url w d st2).1 = download_of w v.
Proof.
  intros Hnd Hrun Hitem [A0 A1]%answers_two.
  destruct (item_is_of_a_decision _ _ _ _ _ _ _ _ _ _ _ _ _ Hrun Hitem)
    as (s & Hs & [= ->] & ->).
  rewrite generar_url_run. cbn zeta.
  rewrite A0, (stored_ndetalle _ _ Hs), A1.
  rewrite records_unique by done.
  destruct (url s) as [blob_name|]; [|done].
  cbn [of_option download_of].
  by destruct (generate_signed_url w bucket blob_name "v4"
                 (timedelta_minutes 15) "GET").
Qed.

Lemma search_results_resolve_witness :
  (generar_url Sample.world_up "002" start).1
  = download_of Sample.world_up (VStr "p/2.pdf").
Proof.
  apply (search_results_resolve Sample.world_up
           None None None None (Some "Ana") 10 0 start
           (Build_search_response (VInt 1)
              (dict_of_rows [(VStr "002", VStr "p/2.pdf")]))
           (Build_state 3 1 1 []) "002" (VStr "p/2.pdf") start).
  - apply (bool_decide_unpack _). vm_compute. exact I.
  - vm_compute. reflexivity.
  - vm_compute. reflexivity.
  - reflexivity.
Defined.

Lemma no_decisions_no_rows db co cr ee od nj :
  sentencias_y_autos db = [] → matching_rows db co cr ee od nj = [].
Proof.
  intros Hempty. apply elem_of_nil_inv. intros m Hm%matching_rows_decision.
  rewrite Hempty in Hm. by apply not_elem_of_nil in Hm.
Qed.

Lemma no_decisions_no_judges db :
  sentencias_y_autos db = [] → linked_judge_names db = [].
Proof.
  intros Hempty. unfold linked_judge_names.
  assert (rows_of SJueces db = []) as ->; [|done].
  apply elem_of_nil_inv.
  intros m (j & sj & s & _ & _ & Hs & _)%elem_of_rows_of_jueces.
  rewrite Hempty in Hs. by apply not_elem_of_nil in Hs.
Qed.

(** X11. On a registry without decision records that answers, the
    three handlers do as follows: /filters returns five empty lists, even
    when judges and associations are stored; /search counts nothing and
    returns an empty mapping for every request whose filter values hold
    no NUL; /descargar answers 404 for every identifier that holds no
    NUL. *)
Theorem handlers_on_empty_registry w co cr ee od nj limit offset d st1 st2 st3 :
  sentencias_y_autos (tables w) = [] →
  answers w (round_trips st1) 6 = true →
  answers w (round_trips st2) 3 = true →
  answers w (round_trips st3) 2 = true →
  row_count limit → row_count offset →
  sendable co cr ee od nj = true →
  has_nul d = false →
  (obtener_filtros w st1).1 = inr (Build_filters_response [] [] [] [] [])
  ∧ (buscar_sentencias w co cr ee od nj limit offset st2).1
    = inr {| total_count := VInt 0; items := ∅ |}
  ∧ (generar_url w d st3).1
    = inl (HTTPException 404 "Archivo no encontrado").
Proof.
  intros Hempty (A0 & A1 & A2 & A3 & A4 & A5)%answers_six Hup
    [B0 B1]%answers_two Hl Ho Hsend Hd.
  split; [|split].
  - rewrite obtener_filtros_run. cbn zeta. rewrite A0, A1, A2, A3, A4, A5.
    by rewrite no_decisions_no_judges, Hempty.
  - rewrite buscar_sentencias_ok by done. cbn [fst].
    unfold matching_ids, all_rows. rewrite no_decisions_no_rows by done.
    unfold window. cbn. by rewrite drop_nil, take_nil.
  - rewrite generar_url_run. cbn zeta. rewrite B0, Hd, B1.
    unfold records. by rewrite Hempty.
Qed.

Lemma handlers_on_empty_registry_witness :
  (obtener_filtros
     (Build_world Sample.registry_without_decisions always_up Sample.signer)
     start).1
  = inr (Build_filters_response [] [] [] [] [])
  ∧ (buscar_sentencias
       (Build_world Sample.registry_without_decisions always_up Sample.signer)
       None None None None (Some "Ana") 10 0 start).1
    = inr {| total_count := VInt 0; items := ∅ |}
  ∧ (generar_url
       (Build_world Sample.registry_without_decisions always_up Sample.signer)
       "002" start).1
    = inl (HTTPException 404 "Archivo no encontrado").
Proof.
  apply (handlers_on_empty_registry
           (Build_world Sample.registry_without_decisions always_up
              Sample.signer)
           None None None None (Some "Ana") 10 0 "002" start start start).
  - reflexivity.
  - reflexivity.
  - reflexivity.
  - reflexivity.
  - unfold row_count. lia.
  - unfold row_count. lia.
  - reflexivity.
  - reflexivity.
Defined.

End Together.
